(** * Eaglearn: the encryption service of [eaglearn_ml.cpp]

    A shallow embedding of [EncryptionManager]
    (src/backend/ml/cpp/eaglearn_ml.cpp, lines 757-923) and the properties
    its specification states about it.

    - A [std::string] and a [std::vector<unsigned char>] are lists of
      [byte]; an [unsigned char] that takes part in arithmetic is the
      integer [uchar_val b] in [0, 256), and storing an [int] into an
      [unsigned char] is [to_uchar], reduction modulo 256.
    - The two base64 loops written inline in [encrypt] and [decrypt] are the
      functions [base64_encode] and [base64_decode].
    - OpenSSL is not part of the repository.  Its calls are the nodes of a
      program tree [prog]; an [OpenSSL] record answers them and [run]
      executes a tree against such a record.  What the library is assumed to
      do is the contract [OpenSSL_ok].  The library [StandIn.lib] meets it;
      its key derivation is PBKDF2 with HMAC-SHA-256 written out in full.
    - [throw std::runtime_error(what)] is the node [Throw what], and so is
      the [std::length_error] of a vector constructor; an index past the
      terminator of a [std::string] and the overflow of an [int] are the
      node [Undefined].
    - Buffer lengths are natural numbers.  Where the source itself keeps
      a length in an [int] (the plaintext length of [encrypt]), the
      conversion is [to_int] and what follows from a value that does not
      fit is written out.

    The scoring classes of the same file follow ([HeadPoseEstimator],
    [GazeEstimator], [StressAnalyzer], [KPICalculator] and the text form of
    the matrix of [CalibrationService]), with further properties of the
    code.

    - A [double] is the primitive binary64 [float]; [std::min] and
      [std::max] are written out with the comparison they make.
    - pybind11 is not part of the repository: a [py::dict] is its lookup
      function and a cast is a function that may fail.  [std::stod] and
      [std::to_string] are parameters; [Cxx] holds a stand-in for them.
    - An [int] counter is an integer: it agrees with the source on every
      list shorter than 2^31 entries. *)

From Stdlib Require Import ZArith List Lia Bool.
From Stdlib Require Import Strings.Byte.
From Stdlib Require Strings.String.
From Stdlib Require Uint63.
From Stdlib Require Floats.
From Stdlib Require DecimalString.
Import ListNotations.
Import String.StringSyntax.
Abbreviation string := String.string.

Local Open Scope string_scope.
Local Open Scope list_scope.
Local Open Scope Z_scope.

(** ** Bytes *)

(** The value of an [unsigned char] after integer promotion. *)
Definition uchar_val (b : byte) : Z := Z.of_N (Byte.to_N b).

(** Conversion of an [int] to [unsigned char]: the value modulo 256. *)
Definition to_uchar (z : Z) : byte :=
  match Byte.of_N (Z.to_N (z mod 256)) with
  | Some b => b
  | None => x00
  end.

(** The 256 bytes, for properties checked byte by byte. *)
Definition all_bytes : list byte :=
  map (fun n => to_uchar (Z.of_nat n)) (seq 0 256).

(** A string literal as the bytes of a [std::string]. *)
Definition bytes (s : string) : list byte := String.list_byte_of_string s.

(** ** The base64 codec *)

Module Base64.

(** [static const char b64_chars[]], line 824. *)
Definition b64_chars : list byte :=
  bytes "ABCDEFGHIJKLMNOPQRSTUVWXYZabcdefghijklmnopqrstuvwxyz0123456789+/".

(** [b64_chars[k]]; every index the encoder forms is below 64. *)
Definition b64_char (k : Z) : byte := nth (Z.to_nat k) b64_chars x00.

(** The padding character ['=']. *)
Definition pad : byte := "="%byte.

(** [static const int b64_decode_map[256]], lines 851-868. *)
Definition b64_decode_map : list Z :=
  [ -1;-1;-1;-1;-1;-1;-1;-1;-1;-1;-1;-1;-1;-1;-1;-1;
    -1;-1;-1;-1;-1;-1;-1;-1;-1;-1;-1;-1;-1;-1;-1;-1;
    -1;-1;-1;-1;-1;-1;-1;-1;-1;-1;-1;62;-1;-1;-1;63;
    52;53;54;55;56;57;58;59;60;61;-1;-1;-1;-1;-1;-1;
    -1; 0; 1; 2; 3; 4; 5; 6; 7; 8; 9;10;11;12;13;14;
    15;16;17;18;19;20;21;22;23;24;25;-1;-1;-1;-1;-1;
    -1;26;27;28;29;30;31;32;33;34;35;36;37;38;39;40;
    41;42;43;44;45;46;47;48;49;50;51;-1;-1;-1;-1;-1;
    -1;-1;-1;-1;-1;-1;-1;-1;-1;-1;-1;-1;-1;-1;-1;-1;
    -1;-1;-1;-1;-1;-1;-1;-1;-1;-1;-1;-1;-1;-1;-1;-1;
    -1;-1;-1;-1;-1;-1;-1;-1;-1;-1;-1;-1;-1;-1;-1;-1;
    -1;-1;-1;-1;-1;-1;-1;-1;-1;-1;-1;-1;-1;-1;-1;-1;
    -1;-1;-1;-1;-1;-1;-1;-1;-1;-1;-1;-1;-1;-1;-1;-1;
    -1;-1;-1;-1;-1;-1;-1;-1;-1;-1;-1;-1;-1;-1;-1;-1;
    -1;-1;-1;-1;-1;-1;-1;-1;-1;-1;-1;-1;-1;-1;-1;-1;
    -1;-1;-1;-1;-1;-1;-1;-1;-1;-1;-1;-1;-1;-1;-1;-1 ].

(** [b64_decode_map[static_cast<unsigned char>(c)]] stored in an
    [unsigned char]: the entry [-1] of a character outside the alphabet
    becomes 255. *)
Definition decode_char (c : byte) : Z :=
  uchar_val (to_uchar (nth (Z.to_nat (uchar_val c)) b64_decode_map 0)).

(** The four indices into [b64_chars] of lines 832-835. *)
Definition index1 (b1 : Z) : Z := Z.shiftr b1 2.
Definition index2 (b1 b2 : Z) : Z :=
  Z.lor (Z.shiftl (Z.land b1 3) 4) (Z.shiftr b2 4).
Definition index3 (b2 b3 : Z) : Z :=
  Z.lor (Z.shiftl (Z.land b2 15) 2) (Z.shiftr b3 6).
Definition index4 (b3 : Z) : Z := Z.land b3 63.

(** The four characters that one pass of the encoding loop (lines 827-836)
    appends for the bytes [b1], [b2], [b3]; [have2] and [have3] are the
    tests [i + 1 < size] and [i + 2 < size]. *)
Definition encode_group (b1 b2 b3 : Z) (have2 have3 : bool) : list byte :=
  [ b64_char (index1 b1);
    b64_char (index2 b1 b2);
    if have2 then b64_char (index3 b2 b3) else pad;
    if have3 then b64_char (index4 b3) else pad ].

(** The encoding loop of [encrypt], lines 825-836: three bytes a pass, a
    missing second or third byte read as 0. *)
Fixpoint base64_encode (data : list byte) : list byte :=
  match data with
  | [] => []
  | [b1] => encode_group (uchar_val b1) 0 0 false false
  | [b1; b2] => encode_group (uchar_val b1) (uchar_val b2) 0 true false
  | b1 :: b2 :: b3 :: rest =>
      encode_group (uchar_val b1) (uchar_val b2) (uchar_val b3) true true
        ++ base64_encode rest
  end.

(** The bytes that one pass of the decoding loop (lines 872-883) pushes for
    the characters [c1 c2 c3 c4]. *)
Definition decode_group (c1 c2 c3 c4 : byte) : list byte :=
  let b1 := decode_char c1 in
  let b2 := decode_char c2 in
  let b3 := if Byte.eqb c3 pad then 0 else decode_char c3 in
  let b4 := if Byte.eqb c4 pad then 0 else decode_char c4 in
  [to_uchar (Z.lor (Z.shiftl b1 2) (Z.shiftr b2 4))]
    ++ (if Byte.eqb c3 pad then []
        else [to_uchar (Z.lor (Z.shiftl (Z.land b2 15) 4) (Z.shiftr b3 2))])
    ++ (if Byte.eqb c4 pad then []
        else [to_uchar (Z.lor (Z.shiftl (Z.land b3 3) 6) b4)]).

(** The decoding loop of [decrypt], lines 870-884: four characters a pass,
    with no test of the length or of the alphabet.  [encrypted[i + k]] is
    the terminator ['\0'] at [i + k = length] and is out of bounds beyond
    it, which is [None]: a last pass over three characters reads the
    terminator as its fourth, a last pass over one or two characters reads
    past it. *)
Fixpoint base64_decode (encrypted : list byte) : option (list byte) :=
  match encrypted with
  | [] => Some []
  | c1 :: c2 :: c3 :: c4 :: rest =>
      match base64_decode rest with
      | Some tail => Some (decode_group c1 c2 c3 c4 ++ tail)
      | None => None
      end
  | [c1; c2; c3] => Some (decode_group c1 c2 c3 x00)
  | _ => None
  end.

End Base64.

(** ** Programs over OpenSSL *)

(** [EVP_sha256()] and [EVP_aes_256_gcm()], the only digest and the only
    cipher the source names. *)
Inductive EVP_MD : Set := EVP_sha256.
Inductive EVP_CIPHER : Set := EVP_aes_256_gcm.

(** A method body as a tree: it returns, throws, runs into undefined
    behaviour, or calls OpenSSL and goes on with the answer.
    - [RAND_bytes num] answers with the bytes written to the buffer.
    - [PKCS5_PBKDF2_HMAC pass salt iter digest keylen] answers with the
      bytes written to [out].
    - [EVP_Encrypt cipher key iv plaintext] is one encryption context
      ([EVP_EncryptInit_ex], [EVP_EncryptUpdate], [EVP_EncryptFinal_ex],
      [EVP_CTRL_GCM_GET_TAG]) and answers with the ciphertext buffer cut to
      [total_len] and the tag.
    - [EVP_Decrypt cipher key iv ciphertext tag] is one decryption context
      ([EVP_DecryptInit_ex], [EVP_DecryptUpdate], [EVP_CTRL_GCM_SET_TAG],
      [EVP_DecryptFinal_ex]) and answers with the plaintext buffer cut to
      [total_len] and the value [ret] of [EVP_DecryptFinal_ex]. *)
Inductive prog (A : Type) : Type :=
| Ret (a : A)
| Throw (what : string)
| Undefined
| RAND_bytes (num : nat) (k : list byte -> prog A)
| PKCS5_PBKDF2_HMAC (pass salt : list byte) (iter : Z) (digest : EVP_MD)
    (keylen : nat) (k : list byte -> prog A)
| EVP_Encrypt (cipher : EVP_CIPHER) (key iv plaintext : list byte)
    (k : list byte * list byte -> prog A)
| EVP_Decrypt (cipher : EVP_CIPHER) (key iv ciphertext tag : list byte)
    (k : list byte * Z -> prog A).

Arguments Ret {A} a.
Arguments Throw {A} what.
Arguments Undefined {A}.
Arguments RAND_bytes {A} num k.
Arguments PKCS5_PBKDF2_HMAC {A} pass salt iter digest keylen k.
Arguments EVP_Encrypt {A} cipher key iv plaintext k.
Arguments EVP_Decrypt {A} cipher key iv ciphertext tag k.

(** Sequencing: [bind p f] runs [p] and gives what it returns to [f]; a
    throw or undefined behaviour in [p] ends the whole program. *)
Fixpoint bind {A B : Type} (p : prog A) (f : A -> prog B) : prog B :=
  match p with
  | Ret a => f a
  | Throw what => Throw what
  | Undefined => Undefined
  | RAND_bytes num k => RAND_bytes num (fun x => bind (k x) f)
  | PKCS5_PBKDF2_HMAC pass salt iter digest keylen k =>
      PKCS5_PBKDF2_HMAC pass salt iter digest keylen (fun x => bind (k x) f)
  | EVP_Encrypt cipher key iv plaintext k =>
      EVP_Encrypt cipher key iv plaintext (fun x => bind (k x) f)
  | EVP_Decrypt cipher key iv ciphertext tag k =>
      EVP_Decrypt cipher key iv ciphertext tag (fun x => bind (k x) f)
  end.

Notation "x <- p ;; q" := (bind p (fun x => q))
  (at level 61, p at next level, right associativity).

(** An OpenSSL library: its answers to the four calls.  [ossl_RAND_bytes]
    is indexed by the number of earlier calls of [RAND_bytes], so that
    successive calls may answer differently. *)
Record OpenSSL : Type := {
  ossl_RAND_bytes : nat -> nat -> list byte;
  ossl_PBKDF2 : list byte -> list byte -> Z -> EVP_MD -> nat -> list byte;
  ossl_Encrypt : EVP_CIPHER -> list byte -> list byte -> list byte ->
                 list byte * list byte;
  ossl_Decrypt : EVP_CIPHER -> list byte -> list byte -> list byte ->
                 list byte -> list byte * Z
}.

(** What the OpenSSL manual promises and the source relies on: a call
    fills the whole buffer it is given (PBKDF2 when the iteration count is
    positive); AES-256-GCM under a 32-byte key and a 12-byte IV gives a
    ciphertext as long as the plaintext and a 16-byte tag; decrypting that
    ciphertext with that tag gives the plaintext back and a positive
    [ret]. *)
Record OpenSSL_ok (lib : OpenSSL) : Prop := {
  RAND_bytes_length : forall calls num,
    length (ossl_RAND_bytes lib calls num) = num;
  PBKDF2_length : forall pass salt iter digest keylen,
    0 < iter ->
    length (ossl_PBKDF2 lib pass salt iter digest keylen) = keylen;
  Encrypt_length : forall key iv plaintext,
    length key = 32%nat -> length iv = 12%nat ->
    length (fst (ossl_Encrypt lib EVP_aes_256_gcm key iv plaintext))
      = length plaintext /\
    length (snd (ossl_Encrypt lib EVP_aes_256_gcm key iv plaintext))
      = 16%nat;
  Decrypt_Encrypt : forall key iv plaintext,
    length key = 32%nat -> length iv = 12%nat ->
    let sealed := ossl_Encrypt lib EVP_aes_256_gcm key iv plaintext in
    fst (ossl_Decrypt lib EVP_aes_256_gcm key iv (fst sealed) (snd sealed))
      = plaintext /\
    0 < snd (ossl_Decrypt lib EVP_aes_256_gcm key iv (fst sealed) (snd sealed))
}.

(** How a program ends. *)
Inductive outcome (A : Type) : Type :=
| Returned (a : A)
| Thrown (what : string)
| UndefinedBehaviour.

Arguments Returned {A} a.
Arguments Thrown {A} what.
Arguments UndefinedBehaviour {A}.

(** [run lib p calls] executes [p] against [lib] after [calls] earlier
    calls of [RAND_bytes]; it gives the outcome and the new count. *)
Fixpoint run {A : Type} (lib : OpenSSL) (p : prog A) (calls : nat)
  : outcome A * nat :=
  match p with
  | Ret a => (Returned a, calls)
  | Throw what => (Thrown what, calls)
  | Undefined => (UndefinedBehaviour, calls)
  | RAND_bytes num k => run lib (k (ossl_RAND_bytes lib calls num)) (S calls)
  | PKCS5_PBKDF2_HMAC pass salt iter digest keylen k =>
      run lib (k (ossl_PBKDF2 lib pass salt iter digest keylen)) calls
  | EVP_Encrypt cipher key iv plaintext k =>
      run lib (k (ossl_Encrypt lib cipher key iv plaintext)) calls
  | EVP_Decrypt cipher key iv ciphertext tag k =>
      run lib (k (ossl_Decrypt lib cipher key iv ciphertext tag)) calls
  end.

(** [no_RAND p]: no path through [p] calls [RAND_bytes]. *)
Inductive no_RAND {A : Type} : prog A -> Prop :=
| no_RAND_Ret a : no_RAND (Ret a)
| no_RAND_Throw what : no_RAND (Throw what)
| no_RAND_Undefined : no_RAND Undefined
| no_RAND_PBKDF2 pass salt iter digest keylen k :
    (forall x, no_RAND (k x)) ->
    no_RAND (PKCS5_PBKDF2_HMAC pass salt iter digest keylen k)
| no_RAND_Encrypt cipher key iv plaintext k :
    (forall x, no_RAND (k x)) ->
    no_RAND (EVP_Encrypt cipher key iv plaintext k)
| no_RAND_Decrypt cipher key iv ciphertext tag k :
    (forall x, no_RAND (k x)) ->
    no_RAND (EVP_Decrypt cipher key iv ciphertext tag k).

(** [may_throw what p]: some path through [p], under some answers of the
    library, ends in [throw std::runtime_error(what)]. *)
Inductive may_throw {A : Type} (what : string) : prog A -> Prop :=
| may_throw_here : may_throw what (Throw what)
| may_throw_RAND num k x :
    may_throw what (k x) -> may_throw what (RAND_bytes num k)
| may_throw_PBKDF2 pass salt iter digest keylen k x :
    may_throw what (k x) ->
    may_throw what (PKCS5_PBKDF2_HMAC pass salt iter digest keylen k)
| may_throw_Encrypt cipher key iv plaintext k x :
    may_throw what (k x) ->
    may_throw what (EVP_Encrypt cipher key iv plaintext k)
| may_throw_Decrypt cipher key iv ciphertext tag k x :
    may_throw what (k x) ->
    may_throw what (EVP_Decrypt cipher key iv ciphertext tag k).

(** [calls_AEAD p]: some path through [p] opens an encryption or a
    decryption context. *)
Inductive calls_AEAD {A : Type} : prog A -> Prop :=
| calls_AEAD_Encrypt cipher key iv plaintext k :
    calls_AEAD (EVP_Encrypt cipher key iv plaintext k)
| calls_AEAD_Decrypt cipher key iv ciphertext tag k :
    calls_AEAD (EVP_Decrypt cipher key iv ciphertext tag k)
| calls_AEAD_RAND num k x :
    calls_AEAD (k x) -> calls_AEAD (RAND_bytes num k)
| calls_AEAD_PBKDF2 pass salt iter digest keylen k x :
    calls_AEAD (k x) ->
    calls_AEAD (PKCS5_PBKDF2_HMAC pass salt iter digest keylen k).

(** ** The class [EncryptionManager] *)

(** The messages of the three [std::runtime_error]s, under the names the
    specification gives the failures. *)
Definition KeyNotConfigured : string := "Encryption key not set".
Definition MalformedEnvelope : string := "Invalid encrypted data".
Definition AuthenticationFailure : string := "Decryption failed".

(** [v.empty()]. *)
Definition empty {T : Type} (v : list T) : bool :=
  match v with
  | [] => true
  | _ :: _ => false
  end.

(** A library call that writes [out] at the start of the buffer [buf]. *)
Definition written (buf out : list byte) : list byte :=
  firstn (length buf) (out ++ skipn (length out) buf).

(** The data members [key_] and [salt_] (eaglearn_ml.h, lines 190-191). *)
Record EncryptionManager : Type := {
  key_ : list byte;
  salt_ : list byte
}.

(** [EncryptionManager::derive_key], lines 762-778: a 32-byte vector of
    zeros, overwritten by PBKDF2 unless the master key is empty. *)
Definition derive_key (this : EncryptionManager) (master_key : list byte)
  : prog (list byte) :=
  let key := repeat x00 32 in
  if negb (empty master_key) then
    PKCS5_PBKDF2_HMAC master_key (salt_ this) 100000 EVP_sha256 32
      (fun out => Ret (written key out))
  else Ret key.

(** The object after line 758 of the constructor: [key_] still empty,
    [salt_] assigned. *)
Definition salted : EncryptionManager :=
  {| key_ := []; salt_ := bytes "eaglearn_salt_v1" |}.

(** The constructor [EncryptionManager::EncryptionManager], lines 757-760:
    [salt_] is assigned, then [key_] is derived with it. *)
Definition construct (master_key : list byte) : prog EncryptionManager :=
  key <- derive_key salted master_key ;;
  Ret {| key_ := key; salt_ := salt_ salted |}.

(** The conversion of a [size_t] to [int]: the value modulo 2^32, read as
    a signed 32-bit number. *)
Definition to_int (z : Z) : Z := (z + 2 ^ 31) mod 2 ^ 32 - 2 ^ 31.

(** The message of the [std::length_error] that a [std::vector]
    constructor throws for a size above [max_size()] (the text is the one
    of libstdc++). *)
Definition LengthError : string :=
  "cannot create std::vector larger than max_size()".

(** The envelope [encrypted_data] that [encrypt] assembles, lines 789-821:
    a random nonce, one AES-256-GCM encryption, and
    nonce ++ tag ++ ciphertext.  The length of the plaintext is kept in
    the [int plaintext_len] (line 799):
    - [plaintext_len + 16] (line 800) overflows from 2^31 - 16 on;
    - a negative [plaintext_len + 16] is converted to a [size_t] above
      [max_size()], and the constructor of [ciphertext] throws;
    - a [plaintext_len] from -16 to -1 gives a buffer shorter than a
      tag, and [EVP_EncryptUpdate] (line 802) is handed a negative
      length, which its interface does not provide for;
    - otherwise the library reads the first [plaintext_len] bytes of the
      plaintext. *)
Definition encrypted_data (this : EncryptionManager) (plaintext : list byte)
  : prog (list byte) :=
  RAND_bytes 12 (fun nonce =>
  let plaintext_len := to_int (Z.of_nat (length plaintext)) in
  if 2 ^ 31 - 16 <=? plaintext_len then Undefined
  else if plaintext_len + 16 <? 0 then Throw LengthError
  else if plaintext_len <? 0 then Undefined
  else
    EVP_Encrypt EVP_aes_256_gcm (key_ this) nonce
      (firstn (Z.to_nat plaintext_len) plaintext) (fun sealed =>
    let ciphertext := fst sealed in
    let tag := snd sealed in
    Ret (nonce ++ tag ++ ciphertext))).

(** [EncryptionManager::encrypt], lines 780-839. *)
Definition encrypt (this : EncryptionManager) (plaintext : list byte)
  : prog (list byte) :=
  if empty plaintext then Ret plaintext
  else if empty (key_ this) then Throw "Encryption key not set"
  else
    envelope <- encrypted_data this plaintext ;;
    Ret (Base64.base64_encode envelope).

(** [EncryptionManager::decrypt], lines 841-923. *)
Definition decrypt (this : EncryptionManager) (encrypted : list byte)
  : prog (list byte) :=
  if empty encrypted then Ret encrypted
  else if empty (key_ this) then Throw "Encryption key not set"
  else
    match Base64.base64_decode encrypted with
    | None => Undefined
    | Some envelope =>
        if (length envelope <? 28)%nat then Throw "Invalid encrypted data"
        else
          let ciphertext := skipn 28 envelope in
          let nonce := firstn 12 envelope in
          let tag := firstn 16 (skipn 12 envelope) in
          EVP_Decrypt EVP_aes_256_gcm (key_ this) nonce ciphertext tag
            (fun opened =>
               let plaintext := fst opened in
               let ret := snd opened in
               if ret <=? 0 then Throw "Decryption failed"
               else Ret plaintext)
    end.

(** ** PBKDF2 with HMAC-SHA-256

    What [PKCS5_PBKDF2_HMAC] computes with [EVP_sha256()], written out from
    FIPS 180-4 (SHA-256), RFC 2104 (HMAC) and RFC 8018 (PBKDF2) on 63-bit
    machine integers, so that the derived keys can be evaluated. *)

(** Lower-case hexadecimal, two digits a byte. *)
Definition hex_digit (z : Z) : byte :=
  nth (Z.to_nat z) (bytes "0123456789abcdef") x00.
Definition hex (l : list byte) : string :=
  String.string_of_list_byte
    (flat_map (fun b => [hex_digit (uchar_val b / 16);
                         hex_digit (uchar_val b mod 16)]) l).

Module SHA256.
Import Uint63.

(** The first 64 primes. *)
Definition primes : list Z :=
  [2; 3; 5; 7; 11; 13; 17; 19; 23; 29; 31; 37; 41; 43; 47; 53; 59; 61; 67;
   71; 73; 79; 83; 89; 97; 101; 103; 107; 109; 113; 127; 131; 137; 139;
   149; 151; 157; 163; 167; 173; 179; 181; 191; 193; 197; 199; 211; 223;
   227; 229; 233; 239; 241; 251; 257; 263; 269; 271; 277; 281; 283; 293;
   307; 311]%Z.

(** The integer cube root of a number below 2^108, bit by bit. *)
Fixpoint cube_root_bits (n : nat) (x r : Z) : Z :=
  match n with
  | O => r
  | S n' =>
      let r' := (r + 2 ^ Z.of_nat n')%Z in
      cube_root_bits n' x (if (r' * r' * r' <=? x)%Z then r' else r)
  end.
Definition cube_root (x : Z) : Z := cube_root_bits 36 x 0.

Local Open Scope uint63_scope.

(** A 32-bit word is an [int] below 2^32. *)
Definition mask32 : int := 0xffffffff.
Definition add32 (a b : int) : int := (a + b) land mask32.
Definition rotr (x n : int) : int :=
  ((x >> n) lor (x << (32 - n))) land mask32.

Definition Ch (x y z : int) : int :=
  (x land y) lxor ((x lxor mask32) land z).
Definition Maj (x y z : int) : int :=
  (x land y) lxor (x land z) lxor (y land z).
Definition Sigma0 (x : int) : int := rotr x 2 lxor rotr x 13 lxor rotr x 22.
Definition Sigma1 (x : int) : int := rotr x 6 lxor rotr x 11 lxor rotr x 25.
Definition sigma0 (x : int) : int := rotr x 7 lxor rotr x 18 lxor (x >> 3).
Definition sigma1 (x : int) : int := rotr x 17 lxor rotr x 19 lxor (x >> 10).

(** The round constants: the first 32 bits of the fractional parts of the
    cube roots of the first 64 primes. *)
Definition K : list int :=
  Eval vm_compute in
    map (fun p => of_Z ((cube_root (p * 2 ^ 96)) mod 2 ^ 32)%Z) primes.

(** The eight working variables, and the hash value. *)
Record state : Set := State { sa : int; sb : int; sc : int; sd : int;
                              se : int; sf : int; sg : int; sh : int }.

(** The initial hash value: the first 32 bits of the fractional parts of
    the square roots of the first 8 primes. *)
Definition H0 : state :=
  Eval vm_compute in
    match map (fun p => of_Z ((Z.sqrt (p * 2 ^ 64)) mod 2 ^ 32)%Z)
              (firstn 8 primes) with
    | [a; b; c; d; e; f; g; h] => State a b c d e f g h
    | _ => State 0 0 0 0 0 0 0 0
    end.

(** The rounds that remain, one for each constant in [ks]: the working
    variables and the window [W_t .. W_(t+15)] of the message schedule. *)
Fixpoint rounds (ks : list int) (a b c d e f g h : int)
    (w0 w1 w2 w3 w4 w5 w6 w7 w8 w9 w10 w11 w12 w13 w14 w15 : int) : state :=
  match ks with
  | [] => State a b c d e f g h
  | k :: ks' =>
      let t1 := add32 (add32 (add32 h (Sigma1 e)) (add32 (Ch e f g) k)) w0 in
      let t2 := add32 (Sigma0 a) (Maj a b c) in
      let w16 := add32 (add32 (sigma1 w14) w9) (add32 (sigma0 w1) w0) in
      rounds ks' (add32 t1 t2) a b c (add32 d t1) e f g
        w1 w2 w3 w4 w5 w6 w7 w8 w9 w10 w11 w12 w13 w14 w15 w16
  end.

(** The compression of one block of 16 words. *)
Definition compress (h : state) (block : list int) : state :=
  match block with
  | w0 :: w1 :: w2 :: w3 :: w4 :: w5 :: w6 :: w7 :: w8 :: w9
       :: w10 :: w11 :: w12 :: w13 :: w14 :: w15 :: _ =>
      let s := rounds K (sa h) (sb h) (sc h) (sd h) (se h) (sf h) (sg h)
                 (sh h) w0 w1 w2 w3 w4 w5 w6 w7 w8 w9 w10 w11 w12 w13 w14 w15 in
      State (add32 (sa h) (sa s)) (add32 (sb h) (sb s)) (add32 (sc h) (sc s))
            (add32 (sd h) (sd s)) (add32 (se h) (se s)) (add32 (sf h) (sf s))
            (add32 (sg h) (sg s)) (add32 (sh h) (sh s))
  | _ => h
  end.

Definition int_of_byte (b : byte) : int :=
  let '(b0, (b1, (b2, (b3, (b4, (b5, (b6, b7))))))) := Byte.to_bits b in
  (if b0 then 1 else 0) lor (if b1 then 2 else 0) lor (if b2 then 4 else 0)
  lor (if b3 then 8 else 0) lor (if b4 then 16 else 0)
  lor (if b5 then 32 else 0) lor (if b6 then 64 else 0)
  lor (if b7 then 128 else 0).

Definition bit (x : int) (n : int) : bool :=
  negb (Uint63.eqb ((x >> n) land 1) 0).

(** The low eight bits of a word. *)
Definition byte_of_int (x : int) : byte :=
  Byte.of_bits (bit x 0, (bit x 1, (bit x 2, (bit x 3,
               (bit x 4, (bit x 5, (bit x 6, bit x 7))))))).

Definition xor_byte (a b : byte) : byte :=
  byte_of_int (int_of_byte a lxor int_of_byte b).

(** Big-endian words. *)
Fixpoint words (l : list byte) : list int :=
  match l with
  | b0 :: b1 :: b2 :: b3 :: rest =>
      ((int_of_byte b0 << 24) lor (int_of_byte b1 << 16)
       lor (int_of_byte b2 << 8) lor int_of_byte b3) :: words rest
  | _ => []
  end.

Definition word_bytes (w : int) : list byte :=
  [byte_of_int (w >> 24); byte_of_int (w >> 16); byte_of_int (w >> 8);
   byte_of_int w].

Definition state_words (s : state) : list int :=
  [sa s; sb s; sc s; sd s; se s; sf s; sg s; sh s].

Definition state_bytes (s : state) : list byte :=
  word_bytes (sa s) ++ word_bytes (sb s) ++ word_bytes (sc s)
  ++ word_bytes (sd s) ++ word_bytes (se s) ++ word_bytes (sf s)
  ++ word_bytes (sg s) ++ word_bytes (sh s).

(** The message, the byte 0x80, zeros up to 56 modulo 64, and the length
    in bits as a 64-bit big-endian number. *)
Definition padded (msg : list byte) : list byte :=
  let n := length msg in
  let bits := (8 * Z.of_nat n)%Z in
  msg ++ [x80] ++ repeat x00 ((119 - n mod 64) mod 64)
  ++ map (fun i => to_uchar (Z.shiftr bits (8 * Z.of_nat i)))
       [7; 6; 5; 4; 3; 2; 1; 0]%nat.

Fixpoint blocks (n : nat) (ws : list int) (h : state) : state :=
  match n with
  | O => h
  | S n' => blocks n' (skipn 16 ws) (compress h (firstn 16 ws))
  end.

(** The hash of a message, as eight words and as 32 bytes. *)
Definition sha256_state (msg : list byte) : state :=
  let p := padded msg in blocks (length p / 64) (words p) H0.

Definition sha256 (msg : list byte) : list byte :=
  state_bytes (sha256_state msg).

End SHA256.

Module HMAC.
Import Uint63 SHA256.

(** The key brought to the block size of 64 bytes (RFC 2104). *)
Definition key_block (key : list byte) : list byte :=
  let key' := if (64 <? length key)%nat then sha256 key else key in
  key' ++ repeat x00 (64 - length key').

Definition ipad (key : list byte) : list byte :=
  map (xor_byte "6") (key_block key).
Definition opad (key : list byte) : list byte :=
  map (xor_byte "\") (key_block key).

(** HMAC-SHA-256, as eight words and as 32 bytes. *)
Definition hmac_state (key msg : list byte) : state :=
  sha256_state (opad key ++ sha256 (ipad key ++ msg)).

Definition hmac (key msg : list byte) : list byte :=
  state_bytes (hmac_state key msg).

(** The HMAC of a message of 32 bytes that is itself a hash value [u],
    from the states [inner] and [outer] reached after the blocks [ipad key]
    and [opad key]: the message and the inner hash each fill one block
    with the padding of a 96-byte input. *)
Definition tail (u : state) : list int :=
  (state_words u ++ [0x80000000; 0; 0; 0; 0; 0; 0; 0x300])%uint63.

Definition hmac_of_state (inner outer u : state) : state :=
  compress outer (tail (compress inner (tail u))).

End HMAC.

Module PBKDF2.
Import SHA256 HMAC.

Definition xor_state (s t : state) : state :=
  State (Uint63.lxor (sa s) (sa t)) (Uint63.lxor (sb s) (sb t))
        (Uint63.lxor (sc s) (sc t)) (Uint63.lxor (sd s) (sd t))
        (Uint63.lxor (se s) (se t)) (Uint63.lxor (sf s) (sf t))
        (Uint63.lxor (sg s) (sg t)) (Uint63.lxor (sh s) (sh t)).

(** The block index as four big-endian bytes. *)
Definition INT (i : nat) : list byte :=
  map (fun k => to_uchar (Z.shiftr (Z.of_nat i) (8 * Z.of_nat k)))
    [3; 2; 1; 0]%nat.

(** One more iteration: the next [U] and the running exclusive or. *)
Definition step (inner outer : state) (ut : state * state) : state * state :=
  let u := hmac_of_state inner outer (fst ut) in (u, xor_state (snd ut) u).

(** Block [i] of the derived key, RFC 8018 section 5.2; [c] is positive. *)
Definition F (P S : list byte) (c : Z) (i : nat) : list byte :=
  let u1 := hmac_state P (S ++ INT i) in
  state_bytes
    match c - 1 with
    | Zpos n =>
        snd (Pos.iter (step (compress H0 (words (ipad P)))
                            (compress H0 (words (opad P)))) (u1, u1) n)
    | _ => u1
    end.

(** PBKDF2 with HMAC-SHA-256; nothing is derived when the iteration count
    is not positive. *)
Definition pbkdf2_hmac_sha256 (P S : list byte) (c : Z) (dkLen : nat)
  : list byte :=
  if c <=? 0 then []
  else firstn dkLen (flat_map (F P S c) (seq 1 ((dkLen + 31) / 32))).

End PBKDF2.

(** ** A library to run the programs

    A library that meets [OpenSSL_ok], to run the programs on concrete
    inputs.  Its PBKDF2 is the function above.  Its cipher is a stand-in
    and not AES-GCM: it complements every byte, and the tag is a checksum
    of key, IV and ciphertext. *)
Module StandIn.

Definition complement (b : byte) : byte := to_uchar (255 - uchar_val b).

Definition checksum (l : list byte) : byte :=
  to_uchar (fold_right (fun b acc => uchar_val b + acc) 0 l).

Definition tag_of (key iv ciphertext : list byte) : list byte :=
  repeat (checksum (key ++ iv ++ ciphertext)) 16.

Definition lib : OpenSSL := {|
  ossl_RAND_bytes := fun calls num => repeat (to_uchar (Z.of_nat calls)) num;
  ossl_PBKDF2 := fun pass salt iter digest keylen =>
    match digest with
    | EVP_sha256 => PBKDF2.pbkdf2_hmac_sha256 pass salt iter keylen
    end;
  ossl_Encrypt := fun cipher key iv plaintext =>
    let ciphertext := map complement plaintext in
    (ciphertext, tag_of key iv ciphertext);
  ossl_Decrypt := fun cipher key iv ciphertext tag =>
    (map complement ciphertext,
     if list_eq_dec byte_eq_dec tag (tag_of key iv ciphertext) then 1 else 0)
|}.

End StandIn.

(** The object that the constructor returns for the empty master secret. *)
Definition zero_keyed : EncryptionManager :=
  {| key_ := repeat x00 32; salt_ := bytes "eaglearn_salt_v1" |}.

(** The inputs of the examples. *)
Definition hello : list byte := bytes "hello world".
Definition secret : list byte := bytes "test-secret".

(** Forty characters outside the base64 alphabet. *)
Definition forty_bangs : list byte := repeat "!"%byte 40.

(** Thirty-nine characters of the alphabet: a length that is no multiple
    of 4. *)
Definition thirty_nine_As : list byte := repeat "A"%byte 39.

(** A plaintext of 2^32 + 5 bytes. *)
Definition long_plaintext : list byte :=
  repeat "A"%byte (N.to_nat 4294967301).


(** * The scoring code

    The classes of [eaglearn_ml.cpp] that score poses, gaze, stress and
    productivity, and the text form of the calibration matrix. *)

(** ** Doubles

    A [double] is an IEEE 754 binary64 number, the primitive [float]. *)
Set Warnings "-inexact-float".

Module Double.
Import Floats.

(** [std::min(a, b)] is [(b < a) ? b : a] and [std::max(a, b)] is
    [(a < b) ? b : a]. *)
Definition std_min (a b : float) : float := if (b <? a)%float then b else a.
Definition std_max (a b : float) : float := if (a <? b)%float then b else a.

(** [static_cast<double>(n)] for an [int], and for a [size_t] below
    2^63. *)
Definition of_int (n : Z) : float :=
  if n <? 0 then (- of_uint63 (Uint63.of_Z (- n)))%float
  else of_uint63 (Uint63.of_Z n).

(** [static_cast<size_t>(n)] for an [int]. *)
Definition size_t_of_int (n : Z) : Z := n mod 2 ^ 64.

End Double.

(** [std::map<std::string, double>], and its [operator[]]: a key that is
    absent is inserted with the value 0. *)
Module StdMap.
Import Floats.

Definition t : Type := string -> option float.

Definition at_key (m : t) (key : string) : float * t :=
  match m key with
  | Some value => (value, m)
  | None =>
      (0%float, fun k => if String.eqb k key then Some 0%float else m k)
  end.

End StdMap.

(** ** [HeadPoseEstimator] *)

Module HeadPoseEstimator.
Import Floats.

(** [HeadPoseEstimator::classify_posture], lines 357-371. *)
Definition classify_posture (yaw pitch roll : float) : string :=
  if ((abs yaw <? 15) && (abs pitch <? 15) && (abs roll <? 10))%float
  then "good"
  else if (15 <? pitch)%float then "forward"
  else if (10 <? abs roll)%float then "tilted"
  else if (pitch <? -15)%float then "slouched"
  else "good".

End HeadPoseEstimator.

(** ** [StressAnalyzer] *)

Module StressAnalyzer.
Import Floats Double.

(** The data members (eaglearn_ml.h, lines 172-174). *)
Record t : Type := {
  sample_rate_ : Z;
  n_mfcc_ : Z;
  stress_thresholds_ : StdMap.t
}.

(** The constructor, lines 586-590. *)
Definition construct (sample_rate : Z) : t :=
  {| sample_rate_ := sample_rate;
     n_mfcc_ := 13;
     stress_thresholds_ := fun k =>
       if String.eqb k "low" then Some 0.33%float
       else if String.eqb k "medium" then Some 0.66%float
       else if String.eqb k "high" then Some 1.0%float
       else None |}.

(** [StressAnalyzer::classify_stress], lines 700-707: the label and the
    object, whose map the two lookups may extend. *)
Definition classify_stress (this : t) (stress_level : float) : string * t :=
  let (low, m1) := StdMap.at_key (stress_thresholds_ this) "low" in
  if (stress_level <? low)%float then
    ("low", {| sample_rate_ := sample_rate_ this; n_mfcc_ := n_mfcc_ this;
               stress_thresholds_ := m1 |})
  else
    let (medium, m2) := StdMap.at_key m1 "medium" in
    let this' := {| sample_rate_ := sample_rate_ this;
                    n_mfcc_ := n_mfcc_ this;
                    stress_thresholds_ := m2 |} in
    if (stress_level <? medium)%float then ("medium", this')
    else ("high", this').

Section Pybind.

(** pybind11 is not part of the repository: a [py::dict] is its lookup,
    from a key to the Python object stored there, and [cast_double] is
    [.cast<double>()], which is [None] when it throws [py::cast_error]. *)
Variable object : Type.
Variable cast_double : object -> option float.

Definition dict : Type := string -> option object.

(** The pattern of lines 664-687: a feature that is present is cast,
    divided by [scale] and capped at 1; one that is absent counts 0. *)
Definition scaled (features : dict) (key : string) (scale : float)
  : option float :=
  match features key with
  | None => Some 0%float
  | Some o =>
      match cast_double o with
      | Some value => Some (std_min (value / scale)%float 1)
      | None => None
      end
  end.

(** [StressAnalyzer::calculate_stress_level], lines 657-698; [None] when a
    cast throws. *)
Definition calculate_stress_level (features : dict) : option float :=
  match scaled features "pitch_std" 100 with
  | None => None
  | Some pitch_stress =>
  match scaled features "energy_std" 0.1 with
  | None => None
  | Some energy_stress =>
  match scaled features "speaking_rate" 200 with
  | None => None
  | Some speaking_stress =>
  match scaled features "spectral_centroid" 5000 with
  | None => None
  | Some spectral_stress =>
  match scaled features "hrv_estimate" 0.5 with
  | None => None
  | Some hrv_stress =>
      let stress_level :=
        (0.25 * pitch_stress + 0.20 * energy_stress + 0.20 * speaking_stress
         + 0.20 * spectral_stress + 0.15 * hrv_stress)%float in
      Some (std_max 0 (std_min 1 stress_level))
  end end end end end.

(** [StressAnalyzer::calculate_confidence], lines 709-723; of the audio
    buffer only its size [num_samples] is read. *)
Definition calculate_confidence (this : t) (num_samples : Z) (features : dict)
  : option float :=
  let min_samples := (of_int (sample_rate_ this) * 0.5)%float in
  let length_score := std_min (of_int num_samples / min_samples)%float 1 in
  match
    match features "energy_mean" with
    | None => Some 0.5%float
    | Some o =>
        match cast_double o with
        | Some energy_mean => Some (std_min (energy_mean / 0.01)%float 1)
        | None => None
        end
    end
  with
  | None => None
  | Some energy_score =>
      Some (std_max 0 (std_min 1 ((length_score + energy_score) / 2)%float))
  end.

End Pybind.

(** The five keys that [calculate_stress_level] looks up. *)
Definition stress_features : list string :=
  ["pitch_std"; "energy_std"; "speaking_rate"; "spectral_centroid";
   "hrv_estimate"].

End StressAnalyzer.

(** ** [GazeEstimator] *)

Module GazeEstimator.
Import Floats Double.

(** The data members (eaglearn_ml.h, lines 123-128). *)
Record t : Type := {
  smoothing_window_ : Z;
  gaze_history_ : list (float * float);
  left_eye_indices_ : list Z;
  right_eye_indices_ : list Z;
  left_iris_indices_ : list Z;
  right_iris_indices_ : list Z
}.

(** The constructor, lines 381-387. *)
Definition construct (smoothing_window : Z) : t :=
  {| smoothing_window_ := smoothing_window;
     gaze_history_ := [];
     left_eye_indices_ := [33; 133; 160; 159; 158; 157; 173; 144];
     right_eye_indices_ := [362; 263; 387; 386; 385; 384; 398; 373];
     left_iris_indices_ := [468; 469; 470; 471; 472];
     right_iris_indices_ := [473; 474; 475; 476; 477] |}.

Definition with_history (this : t) (history : list (float * float)) : t :=
  {| smoothing_window_ := smoothing_window_ this;
     gaze_history_ := history;
     left_eye_indices_ := left_eye_indices_ this;
     right_eye_indices_ := right_eye_indices_ this;
     left_iris_indices_ := left_iris_indices_ this;
     right_iris_indices_ := right_iris_indices_ this |}.

(** [GazeEstimator::reset_smoothing], lines 406-408. *)
Definition reset_smoothing (this : t) : t := with_history this [].

(** [GazeEstimator::apply_smoothing], lines 410-428: the object after the
    call and the pair returned. *)
Definition apply_smoothing (this : t) (gaze_x gaze_y : float)
  : t * (float * float) :=
  let pushed := gaze_history_ this ++ [(gaze_x, gaze_y)] in
  let history :=
    if size_t_of_int (smoothing_window_ this) <? Z.of_nat (length pushed)
    then tl pushed else pushed in
  let this' := with_history this history in
  match history with
  | [] => (this', (gaze_x, gaze_y))
  | _ :: _ =>
      let sums :=
        fold_left (fun sum g => ((fst sum + fst g)%float,
                                 (snd sum + snd g)%float))
                  history (0%float, 0%float) in
      let size := of_int (Z.of_nat (length history)) in
      (this', ((fst sums / size)%float, (snd sums / size)%float))
  end.

(** The calls of [apply_smoothing] on a sequence of samples, in order. *)
Definition smooth_all (this : t) (samples : list (float * float)) : t :=
  fold_left (fun g s => fst (apply_smoothing g (fst s) (snd s))) samples this.

End GazeEstimator.

(** ** [KPICalculator] *)

Module KPICalculator.
Import Floats Double.

(** The data member (eaglearn_ml.h, line 153) and the constructor, lines
    438-440. *)
Record t : Type := { weights_ : StdMap.t }.

Definition construct : t :=
  {| weights_ := fun k =>
       if String.eqb k "focus" then Some 0.35%float
       else if String.eqb k "engagement" then Some 0.25%float
       else if String.eqb k "stress" then Some 0.20%float
       else if String.eqb k "posture" then Some 0.20%float
       else None |}.

(** The [py::dict] returned: its entries in the order they are stored. *)
Inductive value : Type :=
| Number (x : float)
| Text (s : list byte).

Definition result : Type := list (string * value).

(** [std::accumulate(first, last, 0.0)]. *)
Definition accumulate (l : list float) (init : float) : float :=
  fold_left add l init.

Section Pybind.

Variable object : Type.
Variable cast_double : object -> option float.
Variable cast_string : object -> option (list byte).

Definition dict : Type := string -> option object.

(** [d.contains(key) ? d[key].cast<double>() : otherwise]; [None] when
    the cast throws. *)
Definition get_double (d : dict) (key : string) (otherwise : float)
  : option float :=
  match d key with
  | Some o => cast_double o
  | None => Some otherwise
  end.

(** The test of lines 479-480 and of lines 540-541: the sample has a
    confidence above 0.5. *)
Definition confident (sample : dict) : bool :=
  match get_double sample "confidence" 0 with
  | Some confidence => (0.5 <? confidence)%float
  | None => false
  end.

(** The loop of lines 478-487, from the [distances] collected so far. *)
Fixpoint focus_distances (gaze_data : list dict) (distances : list float)
  : option (list float) :=
  match gaze_data with
  | [] => Some distances
  | gaze :: rest =>
      match get_double gaze "confidence" 0 with
      | None => None
      | Some confidence =>
          if (0.5 <? confidence)%float then
            match get_double gaze "gaze_x" 0.5 with
            | None => None
            | Some gaze_x =>
            match get_double gaze "gaze_y" 0.5 with
            | None => None
            | Some gaze_y =>
                let dx := (gaze_x - 0.5)%float in
                let dy := (gaze_y - 0.5)%float in
                focus_distances
                  rest (distances ++ [sqrt (dx * dx + dy * dy)%float])
            end end
          else focus_distances rest distances
      end
  end.

(** [KPICalculator::calculate_focus_score], lines 472-495. *)
Definition calculate_focus_score (gaze_data : list dict) : option float :=
  match gaze_data with
  | [] => Some 0.5%float
  | _ :: _ =>
      match focus_distances gaze_data [] with
      | None => None
      | Some [] => Some 0.5%float
      | Some ((_ :: _) as distances) =>
          let avg_distance :=
            (accumulate distances 0
             / of_int (Z.of_nat (length distances)))%float in
          Some (std_max 0 (1 - avg_distance * 2)%float)
      end
  end.

(** The loop of lines 508-513. *)
Fixpoint count_high_conf (gaze_data : list dict) (high_conf : Z)
  : option Z :=
  match gaze_data with
  | [] => Some high_conf
  | gaze :: rest =>
      match get_double gaze "confidence" 0 with
      | None => None
      | Some confidence =>
          count_high_conf
            rest (if (0.7 <? confidence)%float then high_conf + 1
                  else high_conf)
      end
  end.

(** [d.contains(key) ? std::abs(d[key].cast<double>()) : 0.0]. *)
Definition get_abs (d : dict) (key : string) : option float :=
  match d key with
  | Some o =>
      match cast_double o with
      | Some x => Some (abs x)
      | None => None
      end
  | None => Some 0%float
  end.

(** The loop of lines 520-526. *)
Fixpoint count_good_poses (pose_data : list dict) (good_poses : Z)
  : option Z :=
  match pose_data with
  | [] => Some good_poses
  | pose :: rest =>
      match get_abs pose "yaw" with
      | None => None
      | Some yaw =>
      match get_abs pose "pitch" with
      | None => None
      | Some pitch =>
          count_good_poses
            rest (if ((yaw <? 20) && (pitch <? 20))%float
                  then good_poses + 1 else good_poses)
      end end
  end.

(** [KPICalculator::calculate_engagement_score], lines 497-531. *)
Definition calculate_engagement_score (gaze_data pose_data : list dict)
  : option float :=
  match gaze_data, pose_data with
  | [], [] => Some 0.5%float
  | _, _ =>
      match
        match gaze_data with
        | [] => Some 0.5%float
        | _ :: _ =>
            match count_high_conf gaze_data 0 with
            | None => None
            | Some high_conf =>
                Some (of_int high_conf
                      / of_int (Z.of_nat (length gaze_data)))%float
            end
        end
      with
      | None => None
      | Some gaze_engagement =>
          match
            match pose_data with
            | [] => Some 0.5%float
            | _ :: _ =>
                match count_good_poses pose_data 0 with
                | None => None
                | Some good_poses =>
                    Some (of_int good_poses
                          / of_int (Z.of_nat (length pose_data)))%float
                end
            end
          with
          | None => None
          | Some pose_engagement =>
              Some ((gaze_engagement + pose_engagement) / 2)%float
          end
      end
  end.

(** The loop of lines 539-545, from the [stress_levels] collected so
    far. *)
Fixpoint confident_levels (stress_data : list dict)
         (stress_levels : list float) : option (list float) :=
  match stress_data with
  | [] => Some stress_levels
  | s :: rest =>
      match get_double s "confidence" 0 with
      | None => None
      | Some confidence =>
          if (0.5 <? confidence)%float then
            match get_double s "stress_level" 0 with
            | None => None
            | Some level => confident_levels rest (stress_levels ++ [level])
            end
          else confident_levels rest stress_levels
      end
  end.

(** [KPICalculator::calculate_stress_score], lines 533-553. *)
Definition calculate_stress_score (stress_data : list dict) : option float :=
  match stress_data with
  | [] => Some 0.5%float
  | _ :: _ =>
      match confident_levels stress_data [] with
      | None => None
      | Some [] => Some 0.5%float
      | Some ((_ :: _) as stress_levels) =>
          let avg_stress :=
            (accumulate stress_levels 0
             / of_int (Z.of_nat (length stress_levels)))%float in
          Some (1 - avg_stress)%float
      end
  end.

(** The loop of lines 561-566. *)
Fixpoint count_good_postures (pose_data : list dict) (good_postures : Z)
  : option Z :=
  match pose_data with
  | [] => Some good_postures
  | pose :: rest =>
      match
        match pose "posture" with
        | Some o => cast_string o
        | None => Some []
        end
      with
      | None => None
      | Some posture =>
          count_good_postures
            rest (if list_eq_dec Byte.byte_eq_dec posture (bytes "good")
                  then good_postures + 1 else good_postures)
      end
  end.

(** [KPICalculator::calculate_posture_score], lines 555-569. *)
Definition calculate_posture_score (pose_data : list dict) : option float :=
  match pose_data with
  | [] => Some 0.5%float
  | _ :: _ =>
      match count_good_postures pose_data 0 with
      | None => None
      | Some good_postures =>
          Some (of_int good_postures
                / of_int (Z.of_nat (length pose_data)))%float
      end
  end.

(** [KPICalculator::calculate_productivity_metrics], lines 442-470: the
    dictionary returned and the object, whose map the four lookups may
    extend; [None] when a cast throws. *)
Definition calculate_productivity_metrics
           (this : t) (gaze_data pose_data stress_data : list dict)
           (window_start window_end : list byte) : option (result * t) :=
  match calculate_focus_score gaze_data with
  | None => None
  | Some focus_score =>
  match calculate_engagement_score gaze_data pose_data with
  | None => None
  | Some engagement_score =>
  match calculate_stress_score stress_data with
  | None => None
  | Some stress_score =>
  match calculate_posture_score pose_data with
  | None => None
  | Some posture_score =>
      let (focus, m1) := StdMap.at_key (weights_ this) "focus" in
      let (engagement, m2) := StdMap.at_key m1 "engagement" in
      let (stress, m3) := StdMap.at_key m2 "stress" in
      let (posture, m4) := StdMap.at_key m3 "posture" in
      let overall_productivity :=
        (focus * focus_score + engagement * engagement_score
         + stress * stress_score + posture * posture_score)%float in
      Some ([ ("focus_score", Number focus_score);
              ("engagement_score", Number engagement_score);
              ("stress_score", Number stress_score);
              ("posture_score", Number posture_score);
              ("overall_productivity", Number overall_productivity);
              ("window_start", Text window_start);
              ("window_end", Text window_end) ],
            {| weights_ := m4 |})
  end end end end.

End Pybind.

(** [KPICalculator::get_default_metrics], lines 571-581. *)
Definition get_default_metrics (window_start window_end : list byte)
  : result :=
  [ ("focus_score", Number 0.5); ("engagement_score", Number 0.5);
    ("stress_score", Number 0.5); ("posture_score", Number 0.5);
    ("overall_productivity", Number 0.5);
    ("window_start", Text window_start); ("window_end", Text window_end) ].

End KPICalculator.

(** ** [CalibrationService]: the matrix as text *)

Module CalibrationService.
Import Floats.

(** The test [c >= '0' && c <= '9' || c == '.'] of line 261. *)
Definition is_number_char (c : byte) : bool :=
  ((48 <=? uchar_val c) && (uchar_val c <=? 57)) || Byte.eqb c "."%byte.

(** The local variables of the scanning loop, lines 250-253. *)
Record scanner : Type := {
  values : list float;
  num_str : list byte;
  in_num : bool;
  negative : bool
}.

Definition start : scanner :=
  {| values := []; num_str := []; in_num := false; negative := false |}.

Section Library.

(** [std::stod] and [std::to_string(double)] belong to the C++ library:
    [stod] is [None] when the call throws, and an array that was allocated
    and never written holds the nine numbers [fresh]. *)
Variable stod : list byte -> option float.
Variable to_string : float -> list byte.
Variable fresh : list float.

(** The body of the loop, lines 257-277, for one character; [None] when
    [std::stod] throws. *)
Definition scan_char (st : scanner) (c : byte) : option scanner :=
  if Byte.eqb c "-"%byte && negb (in_num st) then
    Some {| values := values st; num_str := ["-"%byte];
            in_num := true; negative := true |}
  else if is_number_char c then
    if negb (in_num st) then
      Some {| values := values st; num_str := [c];
              in_num := true; negative := negative st |}
    else
      Some {| values := values st; num_str := num_str st ++ [c];
              in_num := in_num st; negative := negative st |}
  else if in_num st then
    match stod (num_str st) with
    | None => None
    | Some d =>
        Some {| values :=
                  values st ++ [if negative st then (- d)%float else d];
                num_str := []; in_num := false; negative := false |}
    end
  else Some st.

Fixpoint scan (st : scanner) (s : list byte) : option scanner :=
  match s with
  | [] => Some st
  | c :: s' =>
      match scan_char st c with
      | None => None
      | Some st' => scan st' s'
      end
  end.

(** [CalibrationService::json_to_matrix], lines 244-288: the nine numbers
    of the array returned, row by row.  The loop runs once more than the
    string is long, with a space for the last character. *)
Definition json_to_matrix (json_str : list byte) : option (list float) :=
  match scan start (json_str ++ [" "%byte]) with
  | None => None
  | Some st =>
      if (9 <=? length (values st))%nat then Some (firstn 9 (values st))
      else Some fresh
  end.

(** One row of lines 296-301. *)
Definition row_to_json (a b c : float) : list byte :=
  bytes "[" ++ to_string a ++ bytes "," ++ to_string b ++ bytes ","
  ++ to_string c ++ bytes "]".

(** The three rows between the outer brackets, lines 294-304. *)
Definition bracket (row0 row1 row2 : list byte) : list byte :=
  bytes "[" ++ row0 ++ bytes "," ++ row1 ++ bytes "," ++ row2 ++ bytes "]".

(** [CalibrationService::matrix_to_json], lines 290-307, on the numbers
    of the buffer; the loop reads the first nine, and a shorter buffer is
    read past its end ([None]). *)
Definition matrix_to_json (matrix : list float) : option (list byte) :=
  match matrix with
  | a :: b :: c :: d :: e :: f :: g :: h :: i :: _ =>
      Some (bracket (row_to_json a b c) (row_to_json d e f)
                    (row_to_json g h i))
  | _ => None
  end.

End Library.

(** A number as the scanner meets it: characters it skips, an optional
    minus sign, digits and dots, and the character that ends the number. *)
Record token : Type := {
  lead : list byte;
  minus : bool;
  digits : list byte;
  stop : byte
}.

Definition skipped (c : byte) : bool :=
  negb (is_number_char c) && negb (Byte.eqb c "-"%byte).

(** The string handed to [std::stod] for a token. *)
Definition number (t : token) : list byte :=
  (if minus t then ["-"%byte] else []) ++ digits t.

Definition text (t : token) : list byte :=
  lead t ++ number t ++ [stop t].

Definition token_ok (t : token) : bool :=
  forallb skipped (lead t) && forallb is_number_char (digits t)
  && negb (is_number_char (stop t))
  && match number t with [] => false | _ :: _ => true end.

(** The numbers pushed for a list of tokens, [read] being what
    [std::stod] returned for each: a token with a minus sign pushes the
    opposite of what was read. *)
Definition signed (tokens : list token) (read : list float) : list float :=
  map (fun tv => if minus (fst tv) then (- snd tv)%float else snd tv)
      (combine tokens read).

(** A number printed as an optional minus sign and then digits and
    dots, together with what [std::stod] reads back from the print. *)
Definition printed (stod : list byte -> option float)
           (to_string : float -> list byte)
           (minus_sign : float -> bool) (read : float -> float) (x : float)
  : Prop :=
  stod (to_string x) = Some (read x) /\
  exists ds, to_string x = (if minus_sign x then ["-"%byte] else []) ++ ds /\
             ds <> [] /\ forallb is_number_char ds = true.

End CalibrationService.

(** ** A stand-in for the two library functions

    [std::to_string(double)] prints as [printf("%f")] does, the value
    rounded to six decimals, ties to even; [std::stod] on the strings the
    scanner builds (a minus sign first, then digits and dots) reads the
    longest prefix that is a decimal number and throws when there is
    none.  The value read is exact for numerals of at most 15 digits. *)

Module Cxx.
Import Floats.

Definition digits_of (n : Z) : list byte :=
  String.list_byte_of_string
    (DecimalString.NilZero.string_of_uint (N.to_uint (Z.to_N n))).

(** [n] written with at least six digits. *)
Definition six_digits (n : Z) : list byte :=
  let ds := digits_of n in repeat "0"%byte (6 - length ds) ++ ds.

(** [m * 2 ^ e * 10 ^ 6] rounded to an integer, ties to even. *)
Definition micro (m : positive) (e : Z) : Z :=
  let n := Z.pos m * 10 ^ 6 in
  if 0 <=? e then n * 2 ^ e
  else
    let d := 2 ^ (- e) in
    let q := n / d in
    let r := n mod d in
    match 2 * r ?= d with
    | Lt => q
    | Gt => q + 1
    | Eq => if Z.even q then q else q + 1
    end.

Definition sign (s : bool) : list byte := if s then ["-"%byte] else [].

Definition to_string (x : float) : list byte :=
  match Prim2SF x with
  | S754_zero s => sign s ++ bytes "0.000000"
  | S754_infinity s => sign s ++ bytes "inf"
  | S754_nan => bytes "nan"
  | S754_finite s m e =>
      let n := micro m e in
      sign s ++ digits_of (n / 10 ^ 6) ++ bytes "." ++ six_digits (n mod 10 ^ 6)
  end.

Definition is_digit (c : byte) : bool :=
  (48 <=? uchar_val c) && (uchar_val c <=? 57).

(** The digits at the head of [s] and what follows them. *)
Fixpoint span_digits (s : list byte) : list byte * list byte :=
  match s with
  | c :: s' =>
      if is_digit c then let (ds, rest) := span_digits s' in (c :: ds, rest)
      else ([], s)
  | [] => ([], [])
  end.

Definition value_of (ds : list byte) : Z :=
  fold_left (fun n c => 10 * n + (uchar_val c - 48)) ds 0.

Definition stod (s : list byte) : option float :=
  let (negative, s1) :=
    match s with
    | c :: s' => if Byte.eqb c "-"%byte then (true, s') else (false, s)
    | [] => (false, s)
    end in
  let (whole, s2) := span_digits s1 in
  let fraction :=
    match s2 with
    | c :: s' => if Byte.eqb c "."%byte then fst (span_digits s') else []
    | [] => []
    end in
  match whole ++ fraction with
  | [] => None
  | _ :: _ =>
      let magnitude :=
        (Double.of_int (value_of (whole ++ fraction))
         / Double.of_int (10 ^ Z.of_nat (length fraction)))%float in
      Some (if negative then (- magnitude)%float else magnitude)
  end.

End Cxx.

(** ** Sample texts and a sample matrix *)

Module Sample.
Import Floats.

Definition token_of (lead : string) (minus : bool) (digits : string)
           (stop : byte) : CalibrationService.token :=
  {| CalibrationService.lead := bytes lead;
     CalibrationService.minus := minus;
     CalibrationService.digits := bytes digits;
     CalibrationService.stop := stop |}.

(** Python objects that are a number, a string or neither, and three
    gaze or stress samples: one without confidence, one with a low
    confidence and coordinates that are no numbers, one confident. *)
Inductive object : Type :=
| Float (x : float)
| Str (s : list byte)
| Other.

Definition cast_double (o : object) : option float :=
  match o with Float x => Some x | _ => None end.

Definition cast_string (o : object) : option (list byte) :=
  match o with Str s => Some s | _ => None end.

(** Features with a list under "mfcc", as [extract_features] stores
    one, and numbers under two of the keys. *)
Definition features : StressAnalyzer.dict object :=
  fun key =>
    if String.eqb key "mfcc" then Some Other
    else if String.eqb key "energy_std" then Some (Float 0.05)
    else if String.eqb key "energy_mean" then Some (Float 0.02)
    else None.

Definition samples : list (KPICalculator.dict object) :=
  [ (fun key => None);
    (fun key =>
       if String.eqb key "confidence" then Some (Float 0.4) else Some Other);
    (fun key =>
       if String.eqb key "confidence" then Some (Float 0.9)
       else if String.eqb key "gaze_x" then Some (Float 0.75)
       else if String.eqb key "stress_level" then Some (Float 0.25)
       else None) ].

(** A window of data in which every score is one half: two gaze samples
    a quarter off the centre, one of them above 0.7 in confidence; a good
    pose and a turned, slouched one; one stress reading of 0.5. *)
Definition gaze_sample (confidence : float) : KPICalculator.dict object :=
  fun key =>
    if String.eqb key "confidence" then Some (Float confidence)
    else if String.eqb key "gaze_x" then Some (Float 0.75)
    else None.

Definition gaze_data : list (KPICalculator.dict object) :=
  [gaze_sample 0.9; gaze_sample 0.6].

Definition pose_sample (yaw : float) (posture : string)
  : KPICalculator.dict object :=
  fun key =>
    if String.eqb key "yaw" then Some (Float yaw)
    else if String.eqb key "posture" then Some (Str (bytes posture))
    else None.

Definition pose_data : list (KPICalculator.dict object) :=
  [pose_sample 5 "good"; pose_sample (-30) "slouched"].

Definition stress_data : list (KPICalculator.dict object) :=
  [ fun key =>
      if String.eqb key "confidence" then Some (Float 0.9)
      else if String.eqb key "stress_level" then Some (Float 0.5)
      else None ].

(** A matrix with two negative entries, the sign of a print and the
    number read back from it. *)
Definition matrix : list float :=
  [1.5; -2; 0; 0.25; 1; 10; 100; 0.5; -1]%float.

Definition minus_sign (x : float) : bool :=
  match Cxx.to_string x with
  | c :: _ => Byte.eqb c "-"%byte
  | [] => false
  end.

Definition read (x : float) : float :=
  match Cxx.stod (Cxx.to_string x) with
  | Some v => v
  | None => 0%float
  end.

(** The tokens of "[[1,-2,3],[4,5,6],[7,8,-9]]". *)
Definition first_row : list CalibrationService.token :=
  [ token_of "[[" false "1" ","; token_of "" true "2" ",";
    token_of "" false "3" "]" ].

Definition nine_numbers : list CalibrationService.token :=
  first_row ++
  [ token_of ",[" false "4" ","; token_of "" false "5" ",";
    token_of "" false "6" "]";
    token_of ",[" false "7" ","; token_of "" false "8" ",";
    token_of "" true "9" "]" ].

End Sample.

(** * Properties *)

(** ** Bytes *)

Lemma uchar_val_range (b : byte) : 0 <= uchar_val b < 256.
Proof.
  unfold uchar_val. pose proof (Byte.to_N_bounded b) as H.
  split; [apply N2Z.is_nonneg | ].
  apply N2Z.inj_le in H. change (Z.of_N 255) with 255 in H. lia.
Qed.

Lemma to_uchar_val (b : byte) : to_uchar (uchar_val b) = b.
Proof.
  unfold to_uchar. rewrite Z.mod_small by apply uchar_val_range.
  unfold uchar_val. rewrite N2Z.id, Byte.of_to_N. reflexivity.
Qed.

Lemma in_all_bytes (b : byte) : In b all_bytes.
Proof.
  unfold all_bytes. apply in_map_iff.
  exists (Z.to_nat (uchar_val b)). pose proof (uchar_val_range b) as H. split.
  - rewrite Z2Nat.id by lia. apply to_uchar_val.
  - apply in_seq. lia.
Qed.

(** A boolean property of one byte, or of two, holds everywhere as soon as
    it evaluates to [true] over [all_bytes]. *)
Lemma for_all_bytes (f : byte -> bool) :
  forallb f all_bytes = true -> forall b, f b = true.
Proof.
  intros H b. rewrite forallb_forall in H. apply H, in_all_bytes.
Qed.

Lemma for_all_bytes2 (f : byte -> byte -> bool) :
  forallb (fun a => forallb (f a) all_bytes) all_bytes = true ->
  forall a b, f a b = true.
Proof.
  intros H a b.
  apply (for_all_bytes (f a)). revert a. apply for_all_bytes. exact H.
Qed.

(** ** The codec *)

Module Base64Facts.
Import Base64.

(** The two tables have the sizes the source declares, and the encoder is
    the usual base64 on a sample. *)
Example table_sizes :
  length b64_chars = 64%nat /\ length b64_decode_map = 256%nat.
Proof.
  split; reflexivity.
Qed.

Example base64_encode_hello :
  base64_encode (bytes "hello world") = bytes "aGVsbG8gd29ybGQ=".
Proof.
  reflexivity.
Qed.

(** The first decoded byte depends on the first two characters only. *)
Lemma first_byte (a b : byte) :
  to_uchar (Z.lor (Z.shiftl (decode_char (b64_char (index1 (uchar_val a)))) 2)
                  (Z.shiftr (decode_char
                     (b64_char (index2 (uchar_val a) (uchar_val b)))) 4)) = a.
Proof.
  apply byte_dec_bl. revert a b.
  apply (for_all_bytes2 (fun a b => Byte.eqb (to_uchar _) a)).
  vm_compute. reflexivity.
Qed.

Lemma second_char_low (a b : byte) :
  Z.land (decode_char (b64_char (index2 (uchar_val a) (uchar_val b)))) 15
  = Z.shiftr (uchar_val b) 4.
Proof.
  apply Z.eqb_eq. revert a b.
  apply (for_all_bytes2 (fun a b => Z.eqb (Z.land _ 15) (Z.shiftr (uchar_val b) 4))).
  vm_compute. reflexivity.
Qed.

Lemma third_char_high (b c : byte) :
  Z.shiftr (decode_char (b64_char (index3 (uchar_val b) (uchar_val c)))) 2
  = Z.land (uchar_val b) 15.
Proof.
  apply Z.eqb_eq. revert b c.
  apply (for_all_bytes2 (fun b c => Z.eqb (Z.shiftr _ 2) (Z.land (uchar_val b) 15))).
  vm_compute. reflexivity.
Qed.

Lemma third_char_low (b c : byte) :
  Z.land (decode_char (b64_char (index3 (uchar_val b) (uchar_val c)))) 3
  = Z.shiftr (uchar_val c) 6.
Proof.
  apply Z.eqb_eq. revert b c.
  apply (for_all_bytes2 (fun b c => Z.eqb (Z.land _ 3) (Z.shiftr (uchar_val c) 6))).
  vm_compute. reflexivity.
Qed.

Lemma third_char_not_pad (b c : byte) :
  Byte.eqb (b64_char (index3 (uchar_val b) (uchar_val c))) pad = false.
Proof.
  apply negb_true_iff. revert b c.
  apply (for_all_bytes2 (fun b c => negb (Byte.eqb _ pad))).
  vm_compute. reflexivity.
Qed.

Lemma fourth_char (c : byte) :
  decode_char (b64_char (index4 (uchar_val c))) = Z.land (uchar_val c) 63.
Proof.
  apply Z.eqb_eq. revert c.
  apply (for_all_bytes (fun c => Z.eqb (decode_char _) (Z.land (uchar_val c) 63))).
  vm_compute. reflexivity.
Qed.

Lemma fourth_char_not_pad (c : byte) :
  Byte.eqb (b64_char (index4 (uchar_val c))) pad = false.
Proof.
  apply negb_true_iff. revert c.
  apply (for_all_bytes (fun c => negb (Byte.eqb _ pad))).
  vm_compute. reflexivity.
Qed.

Lemma rejoin (b : byte) :
  to_uchar (Z.lor (Z.shiftl (Z.shiftr (uchar_val b) 4) 4)
                  (Z.land (uchar_val b) 15)) = b /\
  to_uchar (Z.lor (Z.shiftl (Z.shiftr (uchar_val b) 6) 6)
                  (Z.land (uchar_val b) 63)) = b.
Proof.
  destruct b; vm_compute; auto.
Qed.

(** One pass of the decoder undoes one pass of the encoder, for a full
    group and for the two padded ones. *)
Lemma decode_group3 (a b c : byte) :
  decode_group (b64_char (index1 (uchar_val a)))
               (b64_char (index2 (uchar_val a) (uchar_val b)))
               (b64_char (index3 (uchar_val b) (uchar_val c)))
               (b64_char (index4 (uchar_val c))) = [a; b; c].
Proof.
  unfold decode_group.
  rewrite third_char_not_pad, fourth_char_not_pad.
  rewrite first_byte, second_char_low, third_char_high, third_char_low,
    fourth_char.
  destruct (rejoin b) as [-> _]. destruct (rejoin c) as [_ ->].
  reflexivity.
Qed.

Lemma decode_group2 (a b : byte) :
  decode_group (b64_char (index1 (uchar_val a)))
               (b64_char (index2 (uchar_val a) (uchar_val b)))
               (b64_char (index3 (uchar_val b) 0))
               pad = [a; b].
Proof.
  change 0 with (uchar_val x00). unfold decode_group.
  rewrite third_char_not_pad. change (Byte.eqb pad pad) with true.
  rewrite first_byte, second_char_low, third_char_high.
  destruct (rejoin b) as [-> _]. reflexivity.
Qed.

Lemma decode_group1 (a : byte) :
  decode_group (b64_char (index1 (uchar_val a)))
               (b64_char (index2 (uchar_val a) 0))
               pad pad = [a].
Proof.
  change 0 with (uchar_val x00). unfold decode_group.
  change (Byte.eqb pad pad) with true.
  rewrite first_byte. reflexivity.
Qed.

(** Induction over a list three elements at a time, the stride of the
    encoding loop. *)
Lemma stride3_ind {T : Type} (P : list T -> Prop) :
  P [] ->
  (forall a, P [a]) ->
  (forall a b, P [a; b]) ->
  (forall a b c rest, P rest -> P (a :: b :: c :: rest)) ->
  forall l, P l.
Proof.
  intros H0 H1 H2 H3.
  fix IH 1.
  intros [ | a [ | b [ | c rest ] ] ].
  - exact H0.
  - apply H1.
  - apply H2.
  - apply H3, IH.
Qed.

Lemma base64_encode_length (data : list byte) :
  (length (base64_encode data) = 4 * ((length data + 2) / 3))%nat.
Proof.
  induction data as [ | a | a b | a b c rest IH ] using stride3_ind;
    try reflexivity.
  cbn [base64_encode encode_group app length]. rewrite IH.
  replace (S (S (S (length rest))) + 2)%nat
    with (1 * 3 + (length rest + 2))%nat by lia.
  rewrite Nat.div_add_l by lia. lia.
Qed.

Lemma base64_encode_empty (data : list byte) :
  empty (base64_encode data) = empty data.
Proof.
  destruct data as [ | a [ | b [ | c rest ] ] ]; reflexivity.
Qed.

End Base64Facts.

(** C8.  The codec round-trips: decoding (the loop of [decrypt]) the
    encoding (the loop of [encrypt]) of any byte sequence gives the
    sequence back, whatever its length. *)
Theorem base64_decode_encode (x : list byte) :
  Base64.base64_decode (Base64.base64_encode x) = Some x.
Proof.
  induction x as [ | a | a b | a b c rest IH ] using Base64Facts.stride3_ind.
  - reflexivity.
  - cbn [Base64.base64_encode Base64.encode_group Base64.base64_decode].
    rewrite Base64Facts.decode_group1. reflexivity.
  - cbn [Base64.base64_encode Base64.encode_group Base64.base64_decode].
    rewrite Base64Facts.decode_group2. reflexivity.
  - cbn [Base64.base64_encode Base64.encode_group Base64.base64_decode app].
    rewrite IH, Base64Facts.decode_group3. reflexivity.
Qed.

(** ** More on the codec *)

Module CodecFacts.
Import Base64.

(** Induction four elements at a time, the stride of the decoding loop;
    the three lists that leave a last, shorter pass are cases of their
    own. *)
Lemma stride4_ind {T : Type} (P : list T -> Prop) :
  P [] ->
  (forall a, P [a]) ->
  (forall a b, P [a; b]) ->
  (forall a b c, P [a; b; c]) ->
  (forall a b c d rest, P rest -> P (a :: b :: c :: d :: rest)) ->
  forall l, P l.
Proof.
  intros H0 H1 H2 H3 H4.
  fix IH 1.
  intros [ | a [ | b [ | c [ | d rest ] ] ] ].
  - exact H0.
  - apply H1.
  - apply H2.
  - apply H3.
  - apply H4, IH.
Qed.

(** Every index the encoder forms selects a character of the table. *)
Lemma index1_char (a : byte) : In (b64_char (index1 (uchar_val a))) b64_chars.
Proof.
  assert (H : existsb (Byte.eqb (b64_char (index1 (uchar_val a)))) b64_chars
              = true).
  { revert a. apply for_all_bytes. vm_compute. reflexivity. }
  apply existsb_exists in H. destruct H as (c & Hin & Heq).
  apply byte_dec_bl in Heq. rewrite Heq. exact Hin.
Qed.

Lemma index2_char (a b : byte) :
  In (b64_char (index2 (uchar_val a) (uchar_val b))) b64_chars.
Proof.
  assert (H : existsb (Byte.eqb (b64_char (index2 (uchar_val a) (uchar_val b))))
                b64_chars = true).
  { revert a b.
    apply (for_all_bytes2
             (fun a b => existsb (Byte.eqb (b64_char (index2 (uchar_val a)
                                                       (uchar_val b))))
                           b64_chars)).
    vm_compute. reflexivity. }
  apply existsb_exists in H. destruct H as (c & Hin & Heq).
  apply byte_dec_bl in Heq. rewrite Heq. exact Hin.
Qed.

Lemma index3_char (a b : byte) :
  In (b64_char (index3 (uchar_val a) (uchar_val b))) b64_chars.
Proof.
  assert (H : existsb (Byte.eqb (b64_char (index3 (uchar_val a) (uchar_val b))))
                b64_chars = true).
  { revert a b.
    apply (for_all_bytes2
             (fun a b => existsb (Byte.eqb (b64_char (index3 (uchar_val a)
                                                       (uchar_val b))))
                           b64_chars)).
    vm_compute. reflexivity. }
  apply existsb_exists in H. destruct H as (c & Hin & Heq).
  apply byte_dec_bl in Heq. rewrite Heq. exact Hin.
Qed.

Lemma index4_char (a : byte) : In (b64_char (index4 (uchar_val a))) b64_chars.
Proof.
  assert (H : existsb (Byte.eqb (b64_char (index4 (uchar_val a)))) b64_chars
              = true).
  { revert a. apply for_all_bytes. vm_compute. reflexivity. }
  apply existsb_exists in H. destruct H as (c & Hin & Heq).
  apply byte_dec_bl in Heq. rewrite Heq. exact Hin.
Qed.

Ltac char_ok :=
  first
    [ right; reflexivity
    | left;
      first
        [ apply index1_char | apply index2_char
        | apply index3_char | apply index4_char
        | change 0 with (uchar_val x00);
          first [ apply index2_char | apply index3_char ] ] ].

(** The decoder does not stop at padding: what follows an encoded text is
    decoded as more groups. *)
Lemma decode_encode_app (x rest : list byte) :
  base64_decode (base64_encode x ++ rest) =
  match base64_decode rest with
  | Some tail => Some (x ++ tail)
  | None => None
  end.
Proof.
  induction x as [ | a | a b | a b c more IH ] using Base64Facts.stride3_ind.
  - cbn [base64_encode app]. destruct (base64_decode rest); reflexivity.
  - cbn [base64_encode encode_group app base64_decode].
    rewrite Base64Facts.decode_group1.
    destruct (base64_decode rest); reflexivity.
  - cbn [base64_encode encode_group app base64_decode].
    rewrite Base64Facts.decode_group2.
    destruct (base64_decode rest); reflexivity.
  - cbn [base64_encode encode_group app base64_decode].
    rewrite IH, Base64Facts.decode_group3.
    destruct (base64_decode rest); reflexivity.
Qed.

Lemma decode_encode_whole (x : list byte) :
  base64_decode (base64_encode x) = Some x.
Proof.
  rewrite <- (app_nil_r (base64_encode x)), decode_encode_app.
  cbn [base64_decode]. rewrite app_nil_r. reflexivity.
Qed.

Lemma encode_injective (x y : list byte) :
  base64_encode x = base64_encode y -> x = y.
Proof.
  intros H. apply (f_equal base64_decode) in H.
  rewrite !decode_encode_whole in H. injection H as H. exact H.
Qed.

(** One pass of the decoder pushes one, two or three bytes. *)
Lemma decode_group_length (c1 c2 c3 c4 : byte) :
  (1 <= length (decode_group c1 c2 c3 c4) <= 3)%nat.
Proof.
  unfold decode_group.
  destruct (Byte.eqb c3 pad), (Byte.eqb c4 pad); cbn [app length]; lia.
Qed.

Lemma groups_of_four (n : nat) : ((4 + n + 3) / 4 = S ((n + 3) / 4))%nat.
Proof.
  replace (4 + n + 3)%nat with (n + 3 + 1 * 4)%nat by lia.
  rewrite Nat.div_add by lia. lia.
Qed.

Lemma decode_length (s d : list byte) :
  base64_decode s = Some d ->
  ((length s + 3) / 4 <= length d <= 3 * ((length s + 3) / 4))%nat.
Proof.
  revert d.
  induction s as [ | a | a b | a b c | a b c e rest IH ] using stride4_ind;
    intros d H; cbn [base64_decode] in H; try discriminate.
  - injection H as <-. cbn. lia.
  - assert (Hd : d = decode_group a b c x00) by congruence. subst d.
    pose proof (decode_group_length a b c x00).
    change ((length [a; b; c] + 3) / 4)%nat with 1%nat. lia.
  - destruct (base64_decode rest) as [ tail | ]; [ | discriminate ].
    assert (Hd : d = decode_group a b c e ++ tail) by congruence. subst d.
    specialize (IH tail eq_refl).
    pose proof (decode_group_length a b c e).
    rewrite length_app. cbn [length].
    change (S (S (S (S (length rest)))) + 3)%nat
      with (4 + length rest + 3)%nat.
    rewrite groups_of_four. lia.
Qed.

End CodecFacts.

(** ** Running programs *)

Lemma run_bind {A B : Type} (lib : OpenSSL) (p : prog A) (f : A -> prog B)
    (calls : nat) :
  run lib (bind p f) calls =
  match run lib p calls with
  | (Returned a, calls') => run lib (f a) calls'
  | (Thrown what, calls') => (Thrown what, calls')
  | (UndefinedBehaviour, calls') => (UndefinedBehaviour, calls')
  end.
Proof.
  revert calls.
  induction p as [ a | what | | num k IH | pass salt iter digest keylen k IH
                 | cipher key iv plaintext k IH
                 | cipher key iv ciphertext tag k IH ];
    intros calls; cbn [bind run]; auto.
Qed.

Lemma written_length (buf out : list byte) :
  length (written buf out) = length buf.
Proof.
  unfold written. rewrite length_firstn, length_app, length_skipn. lia.
Qed.


Lemma nonempty_length {T : Type} (v : list T) (n : nat) :
  length v = S n -> empty v = false.
Proof.
  destruct v; [discriminate | reflexivity].
Qed.

(** ** Key derivation *)

(** What [derive_key] returns, with any library at all: the vector has 32
    bytes by construction. *)
Lemma run_derive_key (lib : OpenSSL) (this : EncryptionManager)
    (master_key : list byte) (calls : nat) :
  run lib (derive_key this master_key) calls =
  (Returned
     (if empty master_key then repeat x00 32
      else written (repeat x00 32)
             (ossl_PBKDF2 lib master_key (salt_ this) 100000 EVP_sha256 32)),
   calls).
Proof.
  unfold derive_key. destruct master_key; reflexivity.
Qed.

Lemma run_construct (lib : OpenSSL) (master_key : list byte) (calls : nat) :
  run lib (construct master_key) calls =
  (Returned
     {| key_ := if empty master_key then repeat x00 32
                else written (repeat x00 32)
                       (ossl_PBKDF2 lib master_key (bytes "eaglearn_salt_v1")
                          100000 EVP_sha256 32);
        salt_ := bytes "eaglearn_salt_v1" |},
   calls).
Proof.
  unfold construct. rewrite run_bind, run_derive_key. reflexivity.
Qed.

Lemma derived_key_length (lib : OpenSSL) (salt master_key : list byte) :
  length (if empty master_key then repeat x00 32
          else written (repeat x00 32)
                 (ossl_PBKDF2 lib master_key salt 100000 EVP_sha256 32))
  = 32%nat.
Proof.
  destruct (empty master_key); [ | rewrite written_length ];
    apply repeat_length.
Qed.

(** C9.  Key derivation is deterministic and uses no randomness: no path
    of [derive_key] calls [RAND_bytes], and two runs on the same secret and
    salt, wherever they stand in the sequence of random draws, return the
    same 32-byte key and draw nothing. *)
Theorem derive_key_deterministic (lib : OpenSSL) (this : EncryptionManager)
    (master_key : list byte) (calls1 calls2 : nat) :
  no_RAND (derive_key this master_key) /\
  exists key,
    length key = 32%nat /\
    run lib (derive_key this master_key) calls1 = (Returned key, calls1) /\
    run lib (derive_key this master_key) calls2 = (Returned key, calls2).
Proof.
  split.
  - unfold derive_key. destruct (negb (empty master_key)).
    + constructor. intros out. constructor.
    + constructor.
  - eexists. rewrite !run_derive_key.
    split; [ apply derived_key_length | split; reflexivity ].
Qed.

(** ** PBKDF2 *)

Module PBKDF2Facts.

Lemma F_length (P S : list byte) (c : Z) (i : nat) :
  length (PBKDF2.F P S c i) = 32%nat.
Proof.
  reflexivity.
Qed.

Lemma blocks_length (P S : list byte) (c : Z) (l : list nat) :
  length (flat_map (PBKDF2.F P S c) l) = (32 * length l)%nat.
Proof.
  induction l as [ | i l IH ]; [ reflexivity | ].
  cbn [flat_map]. rewrite length_app, F_length, IH. cbn [length]. lia.
Qed.

(** With a positive iteration count the derived key has the length asked
    for. *)
Lemma pbkdf2_length (P S : list byte) (c : Z) (dkLen : nat) :
  0 < c -> length (PBKDF2.pbkdf2_hmac_sha256 P S c dkLen) = dkLen.
Proof.
  intros Hc. unfold PBKDF2.pbkdf2_hmac_sha256.
  destruct (Z.leb_spec c 0) as [ Hle | _ ]; [ lia | ].
  rewrite length_firstn, blocks_length, length_seq.
  pose proof (Nat.div_mod_eq (dkLen + 31) 32) as Hdiv.
  pose proof (Nat.mod_upper_bound (dkLen + 31) 32) as Hmod.
  lia.
Qed.

(** Test vectors: FIPS 180-4 ("abc", and a message of two blocks),
    RFC 4231 (test case 2), RFC 7914 section 11, and PBKDF2 with
    HMAC-SHA-256 on two of the inputs of RFC 6070. *)
Example sha256_abc :
  hex (SHA256.sha256 (bytes "abc"))
  = "ba7816bf8f01cfea414140de5dae2223b00361a396177a9cb410ff61f20015ad".
Proof.
  vm_compute. reflexivity.
Qed.

Example sha256_two_blocks :
  hex (SHA256.sha256
         (bytes "abcdbcdecdefdefgefghfghighijhijkijkljklmklmnlmnomnopnopq"))
  = "248d6a61d20638b8e5c026930c3e6039a33ce45964ff2167f6ecedd419db06c1".
Proof.
  vm_compute. reflexivity.
Qed.

Example hmac_rfc4231_2 :
  hex (HMAC.hmac (bytes "Jefe") (bytes "what do ya want for nothing?"))
  = "5bdcc146bf60754e6a042426089575c75a003f089d2739839dec58b964ec3843".
Proof.
  vm_compute. reflexivity.
Qed.

Example pbkdf2_rfc7914 :
  hex (PBKDF2.pbkdf2_hmac_sha256 (bytes "passwd") (bytes "salt") 1 64)
  = "55ac046e56e3089fec1691c22544b605f94185216dde0465e68b9d57c20dacbc49ca9cccf179b645991664b39d77ef317c71b845b1e30bd509112041d3a19783".
Proof.
  vm_compute. reflexivity.
Qed.

Example pbkdf2_two_iterations :
  hex (PBKDF2.pbkdf2_hmac_sha256 (bytes "password") (bytes "salt") 2 32)
  = "ae4d0c95af6b46d32d0adff928f06dd02a303f8ef3c251dfd6e2d85a95474c43".
Proof.
  vm_compute. reflexivity.
Qed.

Example pbkdf2_4096_iterations :
  hex (PBKDF2.pbkdf2_hmac_sha256 (bytes "passwordPASSWORDpassword")
         (bytes "saltSALTsaltSALTsaltSALTsaltSALTsalt") 4096 40)
  = "348c89dbcbd32b2f32d814b8116e84cf2b17347ebc1800181c4e2a1fb8dd53e1c635518c7dac47e9".
Proof.
  vm_compute. reflexivity.
Qed.


End PBKDF2Facts.

(** The stand-in library meets the contract. *)
Lemma complement_involutive (b : byte) :
  StandIn.complement (StandIn.complement b) = b.
Proof.
  destruct b; reflexivity.
Qed.

Lemma StandIn_ok : OpenSSL_ok StandIn.lib.
Proof.
  constructor; cbn.
  - intros calls num. apply repeat_length.
  - intros pass salt iter [] keylen. apply PBKDF2Facts.pbkdf2_length.
  - intros key iv plaintext _ _. split.
    + apply length_map.
    + reflexivity.
  - intros key iv plaintext _ _. split.
    + rewrite map_map. rewrite <- (map_id plaintext) at 2.
      apply map_ext. apply complement_involutive.
    + match goal with
      | |- context [ if ?d then _ else _ ] => destruct d as [ _ | Hne ]
      end; [ lia | ].
      exfalso. apply Hne. reflexivity.
Qed.




(** ** The short-circuits and the key check *)

(** C6.  On the empty string [encrypt] and [decrypt] are the programs
    that return the empty string at once: no library call, so no nonce, no
    envelope, no decoding and no decryption, whatever the key is. *)
Theorem empty_string_short_circuit (this : EncryptionManager) :
  encrypt this [] = Ret [] /\ decrypt this [] = Ret [].
Proof.
  split; reflexivity.
Qed.

(** With a key that is not empty, no path of [encrypt] or [decrypt] ends
    in the key-not-set error. *)
Lemma encrypt_never_KeyNotConfigured (this : EncryptionManager)
    (plaintext : list byte) :
  empty (key_ this) = false ->
  ~ may_throw KeyNotConfigured (encrypt this plaintext).
Proof.
  intros Hkey H. unfold encrypt, encrypted_data in H. rewrite Hkey in H.
  destruct (empty plaintext); [ inversion H | ].
  cbv zeta in H.
  destruct (2 ^ 31 - 16 <=? to_int (Z.of_nat (length plaintext)));
    [ | destruct (to_int (Z.of_nat (length plaintext)) + 16 <? 0);
        [ | destruct (to_int (Z.of_nat (length plaintext)) <? 0) ] ];
    cbn [bind] in H; inversion H as [ | num k nonce Hk | | | ]; subst;
    try solve [ inversion Hk ].
  inversion Hk as [ | | | cipher key iv pt k' sealed Hk' | ]; subst.
  inversion Hk'.
Qed.

Lemma decrypt_never_KeyNotConfigured (this : EncryptionManager)
    (encrypted : list byte) :
  empty (key_ this) = false ->
  ~ may_throw KeyNotConfigured (decrypt this encrypted).
Proof.
  intros Hkey H. unfold decrypt in H. rewrite Hkey in H.
  destruct (empty encrypted); [ inversion H | ].
  destruct (Base64.base64_decode encrypted) as [ envelope | ];
    [ | inversion H ].
  destruct (length envelope <? 28)%nat; [ inversion H | ].
  inversion H as [ | | | | cipher key iv ct tag k opened Hk ]; subst.
  destruct (snd opened <=? 0); inversion Hk.
Qed.

(** C10.  Whatever the master secret and whatever the library answers,
    the constructor returns an object whose key has exactly 32 bytes (for
    the empty secret, 32 zero bytes), and on that object neither [encrypt]
    nor [decrypt] has a path to the key-not-set error. *)
Theorem key_always_configured (lib : OpenSSL) (master_key : list byte)
    (calls : nat) :
  (exists this,
     run lib (construct master_key) calls = (Returned this, calls) /\
     length (key_ this) = 32%nat /\
     (forall plaintext,
        ~ may_throw KeyNotConfigured (encrypt this plaintext)) /\
     (forall encrypted,
        ~ may_throw KeyNotConfigured (decrypt this encrypted))) /\
  run lib (construct []) calls =
    (Returned {| key_ := repeat x00 32; salt_ := bytes "eaglearn_salt_v1" |},
     calls).
Proof.
  split; [ | apply run_construct ].
  eexists. split; [ apply run_construct | ].
  cbn [key_].
  pose proof (derived_key_length lib (bytes "eaglearn_salt_v1") master_key)
    as Hlen.
  split; [ exact Hlen | split ]; intros x.
  - apply encrypt_never_KeyNotConfigured.
    cbn [key_]. eapply nonempty_length, Hlen.
  - apply decrypt_never_KeyNotConfigured.
    cbn [key_]. eapply nonempty_length, Hlen.
Qed.

(** ** Encryption *)

Lemma firstn_prefix {T : Type} (l r : list T) (n : nat) :
  length l = n -> firstn n (l ++ r) = l.
Proof.
  intros <-. rewrite firstn_app, firstn_all, Nat.sub_diag.
  cbn [firstn]. apply app_nil_r.
Qed.

(** [to_int] keeps a length below 2^31, and the library then reads the
    whole plaintext. *)
Lemma to_int_small (z : Z) : - 2 ^ 31 <= z < 2 ^ 31 -> to_int z = z.
Proof.
  intros H. unfold to_int. rewrite Z.mod_small by lia. lia.
Qed.

Lemma read_whole (plaintext : list byte) :
  Z.of_nat (length plaintext) < 2 ^ 31 - 16 ->
  0 <= to_int (Z.of_nat (length plaintext)) < 2 ^ 31 - 16 /\
  firstn (Z.to_nat (to_int (Z.of_nat (length plaintext)))) plaintext
  = plaintext.
Proof.
  intros H. rewrite to_int_small by lia.
  split; [ lia | ]. rewrite Nat2Z.id. apply firstn_all.
Qed.

(** The run of [encrypted_data] and of [encrypt] on a non-empty plaintext
    with a non-empty key, when [plaintext_len] is not negative and
    [plaintext_len + 16] does not overflow: the library reads the first
    [plaintext_len] bytes. *)
Lemma run_encrypted_data_read (lib : OpenSSL) (this : EncryptionManager)
    (plaintext : list byte) (calls : nat) :
  0 <= to_int (Z.of_nat (length plaintext)) < 2 ^ 31 - 16 ->
  run lib (encrypted_data this plaintext) calls =
  (let read :=
     firstn (Z.to_nat (to_int (Z.of_nat (length plaintext)))) plaintext in
   Returned
     (ossl_RAND_bytes lib calls 12
      ++ snd (ossl_Encrypt lib EVP_aes_256_gcm (key_ this)
                (ossl_RAND_bytes lib calls 12) read)
      ++ fst (ossl_Encrypt lib EVP_aes_256_gcm (key_ this)
                (ossl_RAND_bytes lib calls 12) read)),
   S calls).
Proof.
  intros Hlen. unfold encrypted_data. cbn [run]. cbv zeta.
  destruct (Z.leb_spec (2 ^ 31 - 16) (to_int (Z.of_nat (length plaintext))))
    as [ Hover | _ ]; [ lia | ].
  destruct (Z.ltb_spec (to_int (Z.of_nat (length plaintext)) + 16) 0)
    as [ Hneg | _ ]; [ lia | ].
  destruct (Z.ltb_spec (to_int (Z.of_nat (length plaintext))) 0)
    as [ Hneg | _ ]; [ lia | ].
  reflexivity.
Qed.

Lemma run_encrypt_read (lib : OpenSSL) (this : EncryptionManager)
    (plaintext : list byte) (calls : nat) :
  empty plaintext = false ->
  empty (key_ this) = false ->
  0 <= to_int (Z.of_nat (length plaintext)) < 2 ^ 31 - 16 ->
  run lib (encrypt this plaintext) calls =
  (let read :=
     firstn (Z.to_nat (to_int (Z.of_nat (length plaintext)))) plaintext in
   Returned
     (Base64.base64_encode
        (ossl_RAND_bytes lib calls 12
         ++ snd (ossl_Encrypt lib EVP_aes_256_gcm (key_ this)
                   (ossl_RAND_bytes lib calls 12) read)
         ++ fst (ossl_Encrypt lib EVP_aes_256_gcm (key_ this)
                   (ossl_RAND_bytes lib calls 12) read))),
   S calls).
Proof.
  intros Hp Hk Hlen. unfold encrypt. rewrite Hp, Hk.
  rewrite run_bind, run_encrypted_data_read by exact Hlen. reflexivity.
Qed.

(** The same for a plaintext shorter than 2^31 - 16 bytes: all of it is
    read. *)
Lemma run_encrypted_data (lib : OpenSSL) (this : EncryptionManager)
    (plaintext : list byte) (calls : nat) :
  Z.of_nat (length plaintext) < 2 ^ 31 - 16 ->
  run lib (encrypted_data this plaintext) calls =
  (Returned
     (ossl_RAND_bytes lib calls 12
      ++ snd (ossl_Encrypt lib EVP_aes_256_gcm (key_ this)
                (ossl_RAND_bytes lib calls 12) plaintext)
      ++ fst (ossl_Encrypt lib EVP_aes_256_gcm (key_ this)
                (ossl_RAND_bytes lib calls 12) plaintext)),
   S calls).
Proof.
  intros Hlen. destruct (read_whole plaintext Hlen) as [Hint Hread].
  rewrite run_encrypted_data_read by exact Hint. cbv zeta.
  rewrite Hread. reflexivity.
Qed.

Lemma run_encrypt (lib : OpenSSL) (this : EncryptionManager)
    (plaintext : list byte) (calls : nat) :
  empty plaintext = false ->
  empty (key_ this) = false ->
  Z.of_nat (length plaintext) < 2 ^ 31 - 16 ->
  run lib (encrypt this plaintext) calls =
  (Returned
     (Base64.base64_encode
        (ossl_RAND_bytes lib calls 12
         ++ snd (ossl_Encrypt lib EVP_aes_256_gcm (key_ this)
                   (ossl_RAND_bytes lib calls 12) plaintext)
         ++ fst (ossl_Encrypt lib EVP_aes_256_gcm (key_ this)
                   (ossl_RAND_bytes lib calls 12) plaintext))),
   S calls).
Proof.
  intros Hp Hk Hlen. unfold encrypt. rewrite Hp, Hk.
  rewrite run_bind, run_encrypted_data by exact Hlen. reflexivity.
Qed.

(** The plaintext of 2^32 + 5 bytes: its length, and the five bytes left
    of it after the conversion to [int]. *)
Lemma long_plaintext_length :
  Z.of_nat (length long_plaintext) = 2 ^ 32 + 5.
Proof.
  unfold long_plaintext. rewrite repeat_length, N_nat_Z. reflexivity.
Qed.

Lemma long_plaintext_read :
  empty long_plaintext = false /\
  0 <= to_int (Z.of_nat (length long_plaintext)) < 2 ^ 31 - 16 /\
  firstn (Z.to_nat (to_int (Z.of_nat (length long_plaintext))))
         long_plaintext
  = repeat "A"%byte 5.
Proof.
  rewrite long_plaintext_length.
  change (to_int (2 ^ 32 + 5)) with 5. change (Z.to_nat 5) with 5%nat.
  unfold long_plaintext.
  replace (N.to_nat 4294967301) with (5 + N.to_nat 4294967296)%nat by lia.
  rewrite repeat_app.
  split; [ reflexivity | ]. split; [ lia | ].
  apply firstn_prefix. reflexivity.
Qed.

(** C7, as amended.  For a non-empty plaintext shorter than 2^31 - 16 bytes
    the envelope that [encrypt] assembles and then encodes is the nonce
    drawn from [RAND_bytes] (12 bytes), then the tag (16 bytes), then the
    ciphertext, which is as long as the plaintext: 28 + |P| bytes in
    all. *)
Theorem envelope_layout (lib : OpenSSL) (this : EncryptionManager)
    (plaintext : list byte) (calls : nat) :
  OpenSSL_ok lib ->
  length (key_ this) = 32%nat ->
  plaintext <> [] ->
  Z.of_nat (length plaintext) < 2 ^ 31 - 16 ->
  let nonce := ossl_RAND_bytes lib calls 12 in
  let sealed := ossl_Encrypt lib EVP_aes_256_gcm (key_ this) nonce plaintext in
  let ciphertext := fst sealed in
  let tag := snd sealed in
  run lib (encrypted_data this plaintext) calls
    = (Returned (nonce ++ tag ++ ciphertext), S calls) /\
  run lib (encrypt this plaintext) calls
    = (Returned (Base64.base64_encode (nonce ++ tag ++ ciphertext)), S calls) /\
  length nonce = 12%nat /\
  length tag = 16%nat /\
  length ciphertext = length plaintext /\
  length (nonce ++ tag ++ ciphertext) = (28 + length plaintext)%nat.
Proof.
  intros Hok Hkey Hne Hlen nonce sealed ciphertext tag.
  assert (Hnonce : length nonce = 12%nat) by apply (RAND_bytes_length lib Hok).
  destruct (Encrypt_length lib Hok (key_ this) nonce plaintext Hkey Hnonce)
    as [Hct Htag].
  fold sealed in Hct, Htag. fold ciphertext in Hct. fold tag in Htag.
  split; [ apply run_encrypted_data, Hlen | split ].
  - apply run_encrypt.
    + destruct plaintext; [ contradiction | reflexivity ].
    + eapply nonempty_length, Hkey.
    + exact Hlen.
  - rewrite !length_app. repeat split; try assumption. lia.
Qed.

Lemma envelope_layout_witness :
  OpenSSL_ok StandIn.lib /\
  length (key_ zero_keyed) = 32%nat /\
  hello <> [] /\
  Z.of_nat (length hello) < 2 ^ 31 - 16 /\
  run StandIn.lib (encrypted_data zero_keyed hello) 0
  = (Returned (ossl_RAND_bytes StandIn.lib 0 12
               ++ snd (ossl_Encrypt StandIn.lib EVP_aes_256_gcm
                         (key_ zero_keyed)
                         (ossl_RAND_bytes StandIn.lib 0 12) hello)
               ++ fst (ossl_Encrypt StandIn.lib EVP_aes_256_gcm
                         (key_ zero_keyed)
                         (ossl_RAND_bytes StandIn.lib 0 12) hello)),
     1%nat).
Proof.
  assert (Hne : hello <> []) by discriminate.
  assert (Hlen : Z.of_nat (length hello) < 2 ^ 31 - 16) by reflexivity.
  split; [ exact StandIn_ok | split; [ reflexivity | split ] ].
  - exact Hne.
  - split; [ exact Hlen | ].
    exact (proj1 (envelope_layout StandIn.lib zero_keyed hello 0
                    StandIn_ok eq_refl Hne Hlen)).
Defined.

(** C7, as stated, fails on a plaintext of 2^32 + 5 bytes: its length
    becomes the [int] 5, five bytes are encrypted, and the envelope has
    33 bytes and not 28 + |P|. *)
Lemma envelope_of_long_plaintext :
  long_plaintext <> [] /\
  Z.of_nat (length long_plaintext) = 2 ^ 32 + 5 /\
  exists envelope,
    run StandIn.lib (encrypted_data zero_keyed long_plaintext) 0
    = (Returned envelope, 1%nat) /\
    length envelope = 33%nat /\
    Z.of_nat (length envelope) <> 28 + Z.of_nat (length long_plaintext).
Proof.
  destruct long_plaintext_read as (Hp & Hint & Hread).
  split; [ intros H; rewrite H in Hp; discriminate Hp | ].
  split; [ exact long_plaintext_length | ].
  eexists. split.
  - rewrite run_encrypted_data_read by exact Hint. cbv zeta.
    rewrite Hread. reflexivity.
  - assert (H : length
                  (ossl_RAND_bytes StandIn.lib 0 12
                   ++ snd (ossl_Encrypt StandIn.lib EVP_aes_256_gcm
                             (key_ zero_keyed)
                             (ossl_RAND_bytes StandIn.lib 0 12)
                             (repeat "A"%byte 5))
                   ++ fst (ossl_Encrypt StandIn.lib EVP_aes_256_gcm
                             (key_ zero_keyed)
                             (ossl_RAND_bytes StandIn.lib 0 12)
                             (repeat "A"%byte 5))) = 33%nat)
      by reflexivity.
    split; [ exact H | ].
    rewrite H, long_plaintext_length. discriminate.
Qed.

(** ** Decryption *)

(** The three fields of an envelope, as [decrypt] cuts them out. *)
Lemma envelope_fields (nonce tag ciphertext : list byte) :
  length nonce = 12%nat ->
  length tag = 16%nat ->
  firstn 12 (nonce ++ tag ++ ciphertext) = nonce /\
  firstn 16 (skipn 12 (nonce ++ tag ++ ciphertext)) = tag /\
  skipn 28 (nonce ++ tag ++ ciphertext) = ciphertext.
Proof.
  intros Hn Ht.
  assert (H12 : skipn 12 (nonce ++ tag ++ ciphertext) = tag ++ ciphertext).
  { rewrite <- Hn. rewrite skipn_app, skipn_all, Nat.sub_diag. reflexivity. }
  split; [ | split ].
  - rewrite <- Hn. rewrite firstn_app, firstn_all, Nat.sub_diag.
    cbn [firstn]. apply app_nil_r.
  - rewrite H12, <- Ht. rewrite firstn_app, firstn_all, Nat.sub_diag.
    cbn [firstn]. apply app_nil_r.
  - change 28%nat with (16 + 12)%nat. rewrite <- skipn_skipn, H12, <- Ht.
    rewrite skipn_app, skipn_all, Nat.sub_diag. reflexivity.
Qed.

(** The run of [decrypt] on an input that the decoding loop turns into an
    envelope of at least 28 bytes. *)
Lemma run_decrypt (lib : OpenSSL) (this : EncryptionManager)
    (encrypted envelope : list byte) (calls : nat) :
  empty encrypted = false ->
  empty (key_ this) = false ->
  Base64.base64_decode encrypted = Some envelope ->
  (28 <= length envelope)%nat ->
  run lib (decrypt this encrypted) calls =
  (let opened :=
     ossl_Decrypt lib EVP_aes_256_gcm (key_ this) (firstn 12 envelope)
       (skipn 28 envelope) (firstn 16 (skipn 12 envelope)) in
   if snd opened <=? 0 then Thrown AuthenticationFailure
   else Returned (fst opened),
   calls).
Proof.
  intros He Hk Hd Hlen. unfold decrypt. rewrite He, Hk, Hd.
  destruct (Nat.ltb_spec (length envelope) 28) as [ Hlt | _ ]; [ lia | ].
  cbn [run]. cbv zeta.
  destruct (snd _ <=? 0); reflexivity.
Qed.

(** [decrypt] on the text of a sealed envelope: what
    [nonce ++ tag ++ ciphertext] was made from comes back, an empty
    plaintext included. *)
Lemma run_decrypt_sealed (lib : OpenSSL) (this : EncryptionManager)
    (nonce data : list byte) (calls : nat) :
  OpenSSL_ok lib ->
  length (key_ this) = 32%nat ->
  length nonce = 12%nat ->
  let sealed := ossl_Encrypt lib EVP_aes_256_gcm (key_ this) nonce data in
  run lib
      (decrypt this (Base64.base64_encode (nonce ++ snd sealed ++ fst sealed)))
      calls
  = (Returned data, calls).
Proof.
  intros Hok Hkey Hnonce sealed.
  assert (Hk : empty (key_ this) = false) by (eapply nonempty_length, Hkey).
  destruct (Encrypt_length lib Hok (key_ this) nonce data Hkey Hnonce)
    as [Hct Htag].
  fold sealed in Hct, Htag.
  destruct (envelope_fields nonce (snd sealed) (fst sealed) Hnonce Htag)
    as (Hf1 & Hf2 & Hf3).
  rewrite (run_decrypt lib this _ (nonce ++ snd sealed ++ fst sealed)).
  - rewrite Hf1, Hf2, Hf3. cbv zeta.
    destruct (Decrypt_Encrypt lib Hok (key_ this) nonce data Hkey Hnonce)
      as [Hpt Hret].
    fold sealed in Hpt, Hret.
    destruct (Z.leb_spec (snd (ossl_Decrypt lib EVP_aes_256_gcm (key_ this)
                                 nonce (fst sealed) (snd sealed))) 0)
      as [ Hle | _ ]; [ lia | ].
    rewrite Hpt. reflexivity.
  - rewrite Base64Facts.base64_encode_empty.
    eapply nonempty_length. rewrite length_app, Hnonce. reflexivity.
  - exact Hk.
  - apply CodecFacts.decode_encode_whole.
  - rewrite !length_app, Hnonce, Htag. lia.
Qed.

(** [encrypt] and then [decrypt] on one object: what comes back is what
    the library was given to read, the first [plaintext_len] bytes. *)
Lemma run_decrypt_encrypt (lib : OpenSSL) (this : EncryptionManager)
    (plaintext : list byte) (calls : nat) :
  OpenSSL_ok lib ->
  length (key_ this) = 32%nat ->
  empty plaintext = false ->
  0 <= to_int (Z.of_nat (length plaintext)) < 2 ^ 31 - 16 ->
  run lib (encrypted <- encrypt this plaintext ;; decrypt this encrypted)
      calls
  = (Returned
       (firstn (Z.to_nat (to_int (Z.of_nat (length plaintext)))) plaintext),
     S calls).
Proof.
  intros Hok Hkey Hp Hlen.
  assert (Hk : empty (key_ this) = false) by (eapply nonempty_length, Hkey).
  rewrite run_bind, (run_encrypt_read lib this plaintext calls Hp Hk Hlen).
  cbv zeta. apply run_decrypt_sealed; try assumption.
  apply (RAND_bytes_length lib Hok).
Qed.

(** C1, as amended.  Round trip: on a service constructed with any master
    secret, decrypting what [encrypt] returns for a plaintext shorter than
    2^31 - 16 bytes gives the plaintext back, for every such plaintext
    (the empty one too) and every nonce that [RAND_bytes] may answer
    with. *)
Theorem decrypt_encrypt (lib : OpenSSL) (master_key plaintext : list byte)
    (calls : nat) :
  OpenSSL_ok lib ->
  Z.of_nat (length plaintext) < 2 ^ 31 - 16 ->
  fst (run lib
         (this <- construct master_key ;;
          encrypted <- encrypt this plaintext ;;
          decrypt this encrypted)
         calls)
  = Returned plaintext.
Proof.
  intros Hok Hlen. rewrite run_bind, run_construct.
  set (this := {| key_ := _; salt_ := _ |}).
  assert (Hkey : length (key_ this) = 32%nat) by apply derived_key_length.
  destruct plaintext as [ | b rest ]; [ reflexivity | ].
  destruct (read_whole (b :: rest) Hlen) as [Hint Hread].
  rewrite (run_decrypt_encrypt lib this (b :: rest) calls Hok Hkey eq_refl
                               Hint).
  cbn [fst]. rewrite Hread. reflexivity.
Qed.

Lemma decrypt_encrypt_witness :
  OpenSSL_ok StandIn.lib /\
  Z.of_nat (length hello) < 2 ^ 31 - 16 /\
  fst (run StandIn.lib
         (this <- construct secret ;;
          encrypted <- encrypt this hello ;;
          decrypt this encrypted)
         0)
  = Returned hello.
Proof.
  split; [ exact StandIn_ok | ].
  split; [ reflexivity | ].
  exact (decrypt_encrypt StandIn.lib secret hello 0 StandIn_ok eq_refl).
Defined.

(** C1, as stated, fails on a plaintext of 2^32 + 5 bytes: its length
    becomes the [int] 5, and what comes back is its first five bytes. *)
Lemma decrypt_encrypt_long_plaintext :
  Z.of_nat (length long_plaintext) = 2 ^ 32 + 5 /\
  fst (run StandIn.lib
         (this <- construct [] ;;
          encrypted <- encrypt this long_plaintext ;;
          decrypt this encrypted)
         0)
  = Returned (repeat "A"%byte 5) /\
  Returned (repeat "A"%byte 5) <> Returned long_plaintext.
Proof.
  destruct long_plaintext_read as (Hp & Hint & Hread).
  split; [ exact long_plaintext_length | ]. split.
  - rewrite run_bind, run_construct. cbn [empty].
    set (this := {| key_ := _; salt_ := _ |}).
    rewrite (run_decrypt_encrypt StandIn.lib this long_plaintext 0 StandIn_ok
                                 eq_refl Hp Hint).
    cbn [fst]. rewrite Hread. reflexivity.
  - intros H.
    apply (f_equal (fun o => match o with
                             | Returned l => Z.of_nat (length l)
                             | _ => 0
                             end)) in H.
    cbv beta iota in H. rewrite long_plaintext_length in H.
    discriminate H.
Qed.

(** C2.  When the tag of a decoded envelope does not verify, that is when
    [EVP_DecryptFinal_ex] does not return a positive value, [decrypt]
    throws the decryption-failed error.  The outcome carries the message
    alone: nothing of the buffer that [EVP_DecryptUpdate] filled is
    returned. *)
Theorem authentication_failure_fails_closed (lib : OpenSSL)
    (this : EncryptionManager) (encrypted envelope : list byte)
    (calls : nat) :
  length (key_ this) = 32%nat ->
  Base64.base64_decode encrypted = Some envelope ->
  (28 <= length envelope)%nat ->
  snd (ossl_Decrypt lib EVP_aes_256_gcm (key_ this) (firstn 12 envelope)
         (skipn 28 envelope) (firstn 16 (skipn 12 envelope))) <= 0 ->
  run lib (decrypt this encrypted) calls
  = (Thrown AuthenticationFailure, calls).
Proof.
  intros Hkey Hd Hlen Hret.
  rewrite (run_decrypt lib this encrypted envelope).
  - cbv zeta. destruct (Z.leb_spec (snd (ossl_Decrypt lib EVP_aes_256_gcm
        (key_ this) (firstn 12 envelope) (skipn 28 envelope)
        (firstn 16 (skipn 12 envelope)))) 0) as [ _ | Hlt ];
      [ reflexivity | lia ].
  - destruct encrypted; [ | reflexivity ].
    injection Hd as <-. cbn in Hlen. lia.
  - eapply nonempty_length, Hkey.
  - exact Hd.
  - exact Hlen.
Qed.

Lemma authentication_failure_fails_closed_witness :
  length (key_ zero_keyed) = 32%nat /\
  Base64.base64_decode forty_bangs = Some (repeat xff 30) /\
  (28 <= length (repeat xff 30))%nat /\
  snd (ossl_Decrypt StandIn.lib EVP_aes_256_gcm (key_ zero_keyed)
         (firstn 12 (repeat xff 30)) (skipn 28 (repeat xff 30))
         (firstn 16 (skipn 12 (repeat xff 30)))) <= 0 /\
  run StandIn.lib (decrypt zero_keyed forty_bangs) 0
  = (Thrown AuthenticationFailure, 0%nat).
Proof.
  assert (Hd : Base64.base64_decode forty_bangs = Some (repeat xff 30))
    by (vm_compute; reflexivity).
  assert (Hlen : (28 <= length (repeat xff 30))%nat) by (cbn; lia).
  assert (Hret : snd (ossl_Decrypt StandIn.lib EVP_aes_256_gcm
                        (key_ zero_keyed)
                        (firstn 12 (repeat xff 30)) (skipn 28 (repeat xff 30))
                        (firstn 16 (skipn 12 (repeat xff 30)))) <= 0)
    by (vm_compute; discriminate).
  split; [ reflexivity | ].
  split; [ exact Hd | ].
  split; [ exact Hlen | ].
  split; [ exact Hret | ].
  exact (authentication_failure_fails_closed StandIn.lib zero_keyed
           forty_bangs (repeat xff 30) 0 eq_refl Hd Hlen Hret).
Defined.




(** C3 describes a check that the decoding loop does not make.  Forty
    characters outside the alphabet decode to thirty bytes 0xFF, and
    thirty-nine characters, a length that is no multiple of 4, decode to
    thirty bytes as well (the terminator is read as a fortieth character):
    both inputs pass the length test and go to the decryption context, so
    that the outcome is the decryption-failed error or a plaintext, never
    the invalid-data error.  An input of five characters is read past its
    terminator. *)
Theorem malformed_base64_reaches_decryption (lib : OpenSSL)
    (this : EncryptionManager) (calls : nat) :
  existsb (Byte.eqb "!") Base64.b64_chars = false /\
  (length thirty_nine_As mod 4 = 3)%nat /\
  run lib (decrypt this forty_bangs) calls =
    (if empty (key_ this) then Thrown KeyNotConfigured
     else
       let opened := ossl_Decrypt lib EVP_aes_256_gcm (key_ this)
                       (repeat xff 12) (repeat xff 2) (repeat xff 16) in
       if snd opened <=? 0 then Thrown AuthenticationFailure
       else Returned (fst opened),
     calls) /\
  run lib (decrypt this thirty_nine_As) calls =
    (if empty (key_ this) then Thrown KeyNotConfigured
     else
       let opened := ossl_Decrypt lib EVP_aes_256_gcm (key_ this)
                       (repeat x00 12) [x00; xff] (repeat x00 16) in
       if snd opened <=? 0 then Thrown AuthenticationFailure
       else Returned (fst opened),
     calls) /\
  run lib (decrypt this (bytes "AAAAA")) calls =
    (if empty (key_ this) then Thrown KeyNotConfigured
     else UndefinedBehaviour,
     calls).
Proof.
  split; [ reflexivity | split; [ reflexivity | ] ].
  destruct (empty (key_ this)) eqn:Hk.
  - unfold decrypt. rewrite Hk. repeat split; reflexivity.
  - split; [ | split ].
    + rewrite (run_decrypt lib this forty_bangs (repeat xff 30));
        solve [ reflexivity | exact Hk | cbn; lia ].
    + rewrite (run_decrypt lib this thirty_nine_As
                 (repeat x00 29 ++ [xff]));
        solve [ reflexivity | exact Hk | cbn; lia ].
    + unfold decrypt. rewrite Hk. reflexivity.
Qed.

(** * Further properties of the encryption service *)


(** The text that the encoding loop of [encrypt] builds has four
    characters for every three bytes, the last group rounded up, and each
    of them is a character of [b64_chars] or the padding ['=']. *)
Theorem base64_encode_shape (data : list byte) :
  length (Base64.base64_encode data) = (4 * ((length data + 2) / 3))%nat /\
  Forall (fun c => In c Base64.b64_chars \/ c = Base64.pad)
         (Base64.base64_encode data).
Proof.
  split; [ apply Base64Facts.base64_encode_length | ].
  induction data as [ | a | a b | a b c rest IH ]
    using Base64Facts.stride3_ind;
    cbn [Base64.base64_encode Base64.encode_group app];
    repeat (apply Forall_cons; [ CodecFacts.char_ok | ]);
    solve [ constructor | exact IH ].
Qed.

(** The decoding loop of [decrypt] stays inside its input exactly when the
    length of the input is 0 or 3 modulo 4; with a length of 1 or 2 modulo
    4 its last pass indexes past the terminator. *)
Theorem base64_decode_in_bounds (encrypted : list byte) :
  (exists data, Base64.base64_decode encrypted = Some data) <->
  (length encrypted mod 4 = 0 \/ length encrypted mod 4 = 3)%nat.
Proof.
  induction encrypted as [ | a | a b | a b c | a b c e rest IH ]
    using CodecFacts.stride4_ind; cbn [Base64.base64_decode].
  - split; [ intros _; left; reflexivity | intros _; eexists; reflexivity ].
  - split; [ intros [d H]; discriminate | intros [H | H]; discriminate ].
  - split; [ intros [d H]; discriminate | intros [H | H]; discriminate ].
  - split; [ intros _; right; reflexivity | intros _; eexists; reflexivity ].
  - assert (Hmod : (length (a :: b :: c :: e :: rest) mod 4
                    = length rest mod 4)%nat).
    { cbn [length].
      replace (S (S (S (S (length rest))))) with (length rest + 1 * 4)%nat
        by lia.
      apply Nat.Div0.mod_add. }
    rewrite Hmod, <- IH.
    destruct (Base64.base64_decode rest) as [ tail | ].
    + split; intros _; eexists; reflexivity.
    + split; intros [d H]; discriminate.
Qed.

(** Decoding does not stop at padding: an encoded text followed by more
    characters decodes to the data followed by the decoding of those
    characters, so the concatenation of two encoded texts decodes to the
    concatenation of the data. *)
Theorem base64_decode_concatenation (x y : list byte) :
  Base64.base64_decode (Base64.base64_encode x ++ Base64.base64_encode y)
  = Some (x ++ y).
Proof.
  rewrite CodecFacts.decode_encode_app, CodecFacts.decode_encode_whole.
  reflexivity.
Qed.

(** An input of at most 36 characters decodes to at most 27 bytes, so on
    an object with a key [decrypt] never opens a decryption context for
    it: it throws the invalid-data error, or, when the length is 1 or 2
    modulo 4, reads past the terminator. *)
Theorem short_text_never_decrypted (this : EncryptionManager)
    (encrypted : list byte) :
  length (key_ this) = 32%nat ->
  encrypted <> [] ->
  (length encrypted <= 36)%nat ->
  decrypt this encrypted =
    match Base64.base64_decode encrypted with
    | Some _ => Throw MalformedEnvelope
    | None => Undefined
    end /\
  ~ calls_AEAD (decrypt this encrypted).
Proof.
  intros Hkey Hne Hlen.
  assert (Hk : empty (key_ this) = false) by (eapply nonempty_length, Hkey).
  assert (Heq : decrypt this encrypted =
                match Base64.base64_decode encrypted with
                | Some _ => Throw MalformedEnvelope
                | None => Undefined
                end).
  { unfold decrypt. rewrite Hk.
    destruct encrypted as [ | c rest ]; [ contradiction | ]. cbn [empty].
    destruct (Base64.base64_decode (c :: rest)) as [ d | ] eqn:Hd;
      [ | reflexivity ].
    apply CodecFacts.decode_length in Hd.
    assert (Hgroups : ((length (c :: rest) + 3) / 4 < 10)%nat).
    { apply Nat.Div0.div_lt_upper_bound. lia. }
    destruct (Nat.ltb_spec (length d) 28) as [ _ | Hge ];
      [ reflexivity | lia ]. }
  split; [ exact Heq | ].
  rewrite Heq. destruct (Base64.base64_decode encrypted);
    intros H; inversion H.
Qed.

Lemma short_text_never_decrypted_witness :
  length (key_ zero_keyed) = 32%nat /\
  bytes "aGVsbG8gd29ybGQ=" <> [] /\
  (length (bytes "aGVsbG8gd29ybGQ=") <= 36)%nat /\
  decrypt zero_keyed (bytes "aGVsbG8gd29ybGQ=") =
    match Base64.base64_decode (bytes "aGVsbG8gd29ybGQ=") with
    | Some _ => Throw MalformedEnvelope
    | None => Undefined
    end.
Proof.
  assert (Hne : bytes "aGVsbG8gd29ybGQ=" <> []) by discriminate.
  assert (Hlen : (length (bytes "aGVsbG8gd29ybGQ=") <= 36)%nat)
    by (cbn; lia).
  split; [ reflexivity | ].
  split; [ exact Hne | ].
  split; [ exact Hlen | ].
  exact (proj1 (short_text_never_decrypted zero_keyed
                  (bytes "aGVsbG8gd29ybGQ=") eq_refl Hne Hlen)).
Defined.

(** On a constructed service [encrypt] returns for every plaintext
    shorter than 2^31 - 16 bytes: it does not throw and does not run into
    undefined behaviour.  For a non-empty plaintext of n bytes the text it
    returns has 4 * ceil((28 + n) / 3) characters, and one draw of
    [RAND_bytes] has been made. *)
Theorem encrypt_returns (lib : OpenSSL) (master_key plaintext : list byte)
    (calls : nat) :
  OpenSSL_ok lib ->
  plaintext <> [] ->
  Z.of_nat (length plaintext) < 2 ^ 31 - 16 ->
  exists text,
    run lib (this <- construct master_key ;; encrypt this plaintext) calls
    = (Returned text, S calls) /\
    length text = (4 * ((length plaintext + 30) / 3))%nat.
Proof.
  intros Hok Hne Hlen. rewrite run_bind, run_construct.
  set (this := {| key_ := _; salt_ := _ |}).
  assert (Hkey : length (key_ this) = 32%nat) by apply derived_key_length.
  assert (Hk : empty (key_ this) = false) by (eapply nonempty_length, Hkey).
  assert (Hp : empty plaintext = false)
    by (destruct plaintext; [ contradiction | reflexivity ]).
  rewrite (run_encrypt lib this plaintext calls Hp Hk Hlen).
  eexists. split; [ reflexivity | ].
  rewrite Base64Facts.base64_encode_length, !length_app.
  assert (Hnonce : length (ossl_RAND_bytes lib calls 12) = 12%nat)
    by apply (RAND_bytes_length lib Hok).
  destruct (Encrypt_length lib Hok (key_ this) (ossl_RAND_bytes lib calls 12)
              plaintext Hkey Hnonce) as [Hct Htag].
  rewrite Hnonce, Htag, Hct.
  replace (12 + (16 + length plaintext) + 2)%nat
    with (length plaintext + 30)%nat by lia.
  reflexivity.
Qed.

Lemma encrypt_returns_witness :
  OpenSSL_ok StandIn.lib /\
  hello <> [] /\
  Z.of_nat (length hello) < 2 ^ 31 - 16 /\
  exists text,
    run StandIn.lib (this <- construct [] ;; encrypt this hello) 0
    = (Returned text, 1%nat) /\
    length text = (4 * ((length hello + 30) / 3))%nat.
Proof.
  assert (Hne : hello <> []) by discriminate.
  split; [ exact StandIn_ok | ].
  split; [ exact Hne | ].
  split; [ reflexivity | ].
  exact (encrypt_returns StandIn.lib [] hello 0 StandIn_ok Hne eq_refl).
Defined.

(** [decrypt] releases a plaintext only after the tag has verified: when
    it returns on a non-empty input, the input decoded to an envelope of
    at least 28 bytes, [EVP_DecryptFinal_ex] returned a positive value for
    it, and what is returned is the plaintext of that decryption. *)
Theorem decrypt_returns_only_verified (lib : OpenSSL)
    (this : EncryptionManager) (encrypted plaintext : list byte)
    (calls calls' : nat) :
  encrypted <> [] ->
  run lib (decrypt this encrypted) calls = (Returned plaintext, calls') ->
  exists envelope,
    Base64.base64_decode encrypted = Some envelope /\
    (28 <= length envelope)%nat /\
    0 < snd (ossl_Decrypt lib EVP_aes_256_gcm (key_ this)
               (firstn 12 envelope) (skipn 28 envelope)
               (firstn 16 (skipn 12 envelope))) /\
    plaintext = fst (ossl_Decrypt lib EVP_aes_256_gcm (key_ this)
                       (firstn 12 envelope) (skipn 28 envelope)
                       (firstn 16 (skipn 12 envelope))).
Proof.
  intros Hne Hrun. unfold decrypt in Hrun.
  destruct encrypted as [ | c rest ]; [ contradiction | ].
  cbn [empty] in Hrun.
  destruct (empty (key_ this)); [ discriminate | ].
  destruct (Base64.base64_decode (c :: rest)) as [ envelope | ];
    [ | discriminate ].
  destruct (Nat.ltb_spec (length envelope) 28) as [ Hlt | Hge ];
    [ discriminate | ].
  cbn [run] in Hrun. cbv zeta in Hrun.
  exists envelope. split; [ reflexivity | split; [ exact Hge | ] ].
  revert Hrun.
  destruct (Z.leb_spec (snd (ossl_Decrypt lib EVP_aes_256_gcm (key_ this)
                               (firstn 12 envelope) (skipn 28 envelope)
                               (firstn 16 (skipn 12 envelope)))) 0)
    as [ Hle | Hgt ]; cbn [run]; intros Hrun; [ discriminate | ].
  split; [ exact Hgt | congruence ].
Qed.

(** The text of "hello world" under the zero key and the draw of the
    library [StandIn.lib] at count 0. *)
Lemma hello_text_decrypts :
  run StandIn.lib
    (decrypt zero_keyed
       (bytes "AAAAAAAAAAAAAAAAmZmZmZmZmZmZmZmZmZmZmZeak5OQ34iQjZOb")) 0
  = (Returned hello, 0%nat).
Proof.
  vm_compute. reflexivity.
Qed.

Lemma decrypt_returns_only_verified_witness :
  bytes "AAAAAAAAAAAAAAAAmZmZmZmZmZmZmZmZmZmZmZeak5OQ34iQjZOb" <> [] /\
  run StandIn.lib
    (decrypt zero_keyed
       (bytes "AAAAAAAAAAAAAAAAmZmZmZmZmZmZmZmZmZmZmZeak5OQ34iQjZOb")) 0
  = (Returned hello, 0%nat) /\
  exists envelope,
    Base64.base64_decode
      (bytes "AAAAAAAAAAAAAAAAmZmZmZmZmZmZmZmZmZmZmZeak5OQ34iQjZOb")
    = Some envelope /\
    (28 <= length envelope)%nat.
Proof.
  assert (Hne : bytes "AAAAAAAAAAAAAAAAmZmZmZmZmZmZmZmZmZmZmZeak5OQ34iQjZOb"
                <> []) by discriminate.
  split; [ exact Hne | ].
  split; [ exact hello_text_decrypts | ].
  destruct (decrypt_returns_only_verified StandIn.lib zero_keyed _ hello 0 0
              Hne hello_text_decrypts) as (envelope & Hd & Hlen & _).
  exists envelope. split; assumption.
Defined.

(** Two calls of [encrypt] on one object, with plaintexts shorter than
    2^31 - 16 bytes, ask [RAND_bytes] twice, one draw after the other,
    also for the same plaintext; whenever the two draws differ, so do the
    two texts returned. *)
Theorem encrypt_twice_fresh_nonce (lib : OpenSSL) (this : EncryptionManager)
    (p1 p2 : list byte) (calls : nat) :
  OpenSSL_ok lib ->
  length (key_ this) = 32%nat ->
  p1 <> [] -> p2 <> [] ->
  Z.of_nat (length p1) < 2 ^ 31 - 16 ->
  Z.of_nat (length p2) < 2 ^ 31 - 16 ->
  ossl_RAND_bytes lib calls 12 <> ossl_RAND_bytes lib (S calls) 12 ->
  exists t1 t2,
    run lib (c1 <- encrypt this p1 ;; c2 <- encrypt this p2 ;; Ret (c1, c2))
        calls
    = (Returned (t1, t2), S (S calls)) /\
    t1 <> t2.
Proof.
  intros Hok Hkey Hp1 Hp2 Hl1 Hl2 Hdraw.
  assert (Hk : empty (key_ this) = false) by (eapply nonempty_length, Hkey).
  assert (He1 : empty p1 = false)
    by (destruct p1; [ contradiction | reflexivity ]).
  assert (He2 : empty p2 = false)
    by (destruct p2; [ contradiction | reflexivity ]).
  rewrite run_bind, (run_encrypt lib this p1 calls He1 Hk Hl1).
  rewrite run_bind, (run_encrypt lib this p2 (S calls) He2 Hk Hl2).
  cbn [run]. do 2 eexists. split; [ reflexivity | ].
  intros Heq. apply CodecFacts.encode_injective in Heq.
  apply (f_equal (firstn 12)) in Heq.
  rewrite !firstn_prefix in Heq by apply (RAND_bytes_length lib Hok).
  exact (Hdraw Heq).
Qed.

Lemma encrypt_twice_fresh_nonce_witness :
  OpenSSL_ok StandIn.lib /\
  length (key_ zero_keyed) = 32%nat /\
  hello <> [] /\
  Z.of_nat (length hello) < 2 ^ 31 - 16 /\
  ossl_RAND_bytes StandIn.lib 0 12 <> ossl_RAND_bytes StandIn.lib 1 12 /\
  exists t1 t2,
    run StandIn.lib
      (c1 <- encrypt zero_keyed hello ;; c2 <- encrypt zero_keyed hello ;;
       Ret (c1, c2)) 0
    = (Returned (t1, t2), 2%nat) /\
    t1 <> t2.
Proof.
  assert (Hne : hello <> []) by discriminate.
  assert (Hdraw : ossl_RAND_bytes StandIn.lib 0 12
                  <> ossl_RAND_bytes StandIn.lib 1 12) by discriminate.
  split; [ exact StandIn_ok | ].
  split; [ reflexivity | ].
  split; [ exact Hne | ].
  split; [ reflexivity | ].
  split; [ exact Hdraw | ].
  exact (encrypt_twice_fresh_nonce StandIn.lib zero_keyed hello hello 0
           StandIn_ok eq_refl Hne Hne eq_refl eq_refl Hdraw).
Defined.

(** * Properties of the scoring code *)

Import Floats.

Module DoubleFacts.
Import Floats Double.

Lemma SFcompare_antisym (x y : spec_float) :
  SFcompare y x = option_map CompOpp (SFcompare x y).
Proof.
  destruct x as [ sx | sx | | sx mx ex ], y as [ sy | sy | | sy my ey ];
    cbn [SFcompare option_map]; try reflexivity;
    try (destruct sx; reflexivity); try (destruct sy; reflexivity);
    try (destruct sx, sy; reflexivity).
  destruct sx, sy; cbn [CompOpp]; try reflexivity.
  - rewrite (Z.compare_antisym ex ey).
    change (Pos.compare_cont Eq my mx) with (Pos.compare my mx).
    change (Pos.compare_cont Eq mx my) with (Pos.compare mx my).
    rewrite (Pos.compare_antisym mx my).
    destruct (ex ?= ey); cbn [CompOpp]; try reflexivity.
  - rewrite (Z.compare_antisym ex ey).
    change (Pos.compare_cont Eq my mx) with (Pos.compare my mx).
    change (Pos.compare_cont Eq mx my) with (Pos.compare mx my).
    rewrite (Pos.compare_antisym mx my).
    destruct (ex ?= ey); cbn [CompOpp]; try reflexivity.
Qed.

Lemma ltb_leb (x y : float) : (x <? y)%float = true -> (x <=? y)%float = true.
Proof.
  rewrite ltb_spec, leb_spec. unfold SFltb, SFleb.
  destruct (SFcompare _ _) as [ [ | | ] | ]; intros H;
    try discriminate; reflexivity.
Qed.

Lemma ltb_asym (x y : float) : (x <? y)%float = true -> (y <? x)%float = false.
Proof.
  rewrite !ltb_spec. unfold SFltb.
  rewrite (SFcompare_antisym (Prim2SF x) (Prim2SF y)).
  destruct (SFcompare _ _) as [ [ | | ] | ]; intros H;
    try discriminate; reflexivity.
Qed.

(** |x| < c excludes c < x and x < -c. *)
Lemma abs_ltb_upper (x c : float) :
  (abs x <? c)%float = true -> (c <? x)%float = false.
Proof.
  rewrite !ltb_spec, abs_spec. unfold SFltb.
  rewrite (SFcompare_antisym (Prim2SF x) (Prim2SF c)).
  destruct (Prim2SF x) as [ sx | sx | | sx mx ex ],
           (Prim2SF c) as [ sc | sc | | sc mc ec ];
    cbn [SFabs SFcompare option_map CompOpp];
    try discriminate; try reflexivity;
    try (destruct sx; try destruct sc; cbn; intros H; try discriminate;
         reflexivity).
  destruct sx, sc; cbn [CompOpp]; intros H; try discriminate; try reflexivity.
  destruct (ex ?= ec); try discriminate; try reflexivity.
  destruct (Pos.compare_cont Eq mx mc); try discriminate; reflexivity.
Qed.

Lemma abs_ltb_lower (x c : float) :
  (abs x <? c)%float = true -> (x <? - c)%float = false.
Proof.
  rewrite !ltb_spec, abs_spec, opp_spec. unfold SFltb.
  destruct (Prim2SF x) as [ sx | sx | | sx mx ex ],
           (Prim2SF c) as [ sc | sc | | sc mc ec ];
    cbn [SFabs SFopp SFcompare negb];
    try discriminate; try reflexivity;
    try (destruct sx; try destruct sc; cbn; intros H; try discriminate;
         reflexivity).
  destruct sx, sc; cbn [negb]; intros H; try discriminate; try reflexivity.
  destruct (ex ?= ec); try discriminate; try reflexivity.
  destruct (Pos.compare_cont Eq mx mc); try discriminate; reflexivity.
Qed.

Ltac compare_cases :=
  repeat match goal with
         | |- context [ Z.compare ?a ?b ] => destruct (Z.compare_spec a b)
         | |- context [ Pos.compare_cont Eq ?a ?b ] =>
             change (Pos.compare_cont Eq a b) with (Pos.compare a b);
             destruct (Pos.compare_spec a b)
         end.

(** [x <= y] and [y < z] give [x < z]. *)
Lemma SFleb_ltb_trans (x y z : spec_float) :
  SFleb x y = true -> SFltb y z = true -> SFltb x z = true.
Proof.
  unfold SFleb, SFltb.
  destruct x as [ sx | sx | | sx mx ex ], y as [ sy | sy | | sy my ey ],
           z as [ sz | sz | | sz mz ez ];
    cbn [SFcompare];
    try discriminate; try reflexivity;
    try (destruct sx; try discriminate; try reflexivity);
    try (destruct sy; try discriminate; try reflexivity);
    try (destruct sz; try discriminate; try reflexivity);
    compare_cases; subst; cbn [CompOpp];
    try discriminate; try reflexivity; try lia.
Qed.

Lemma leb_ltb_trans (x y z : float) :
  (x <=? y)%float = true -> (y <? z)%float = true -> (x <? z)%float = true.
Proof.
  rewrite leb_spec, !ltb_spec. apply SFleb_ltb_trans.
Qed.

Lemma is_nan_spec (x : float) : is_nan x = true -> Prim2SF x = S754_nan.
Proof.
  unfold is_nan. rewrite eqb_spec. unfold SFeqb.
  destruct (Prim2SF x) as [ sx | sx | | sx mx ex ]; cbn [SFcompare];
    try reflexivity; try (destruct sx; discriminate).
  destruct sx; rewrite Z.compare_refl;
    change (Pos.compare_cont Eq mx mx) with (Pos.compare mx mx);
    rewrite Pos.compare_refl; discriminate.
Qed.

Lemma nan_ltb (x y : float) :
  is_nan x = true ->
  (x <? y)%float = false /\ (y <? x)%float = false /\
  (abs x <? y)%float = false /\ (y <? abs x)%float = false.
Proof.
  intros H. apply is_nan_spec in H.
  rewrite !ltb_spec, abs_spec, H. unfold SFltb. cbn [SFabs SFcompare].
  destruct (Prim2SF y); repeat split; reflexivity.
Qed.

(** [std::max(0.0, std::min(1.0, x))] lies between 0 and 1 for every [x],
    a NaN included. *)
Lemma clamp_range (x : float) :
  (0 <=? std_max 0 (std_min 1 x))%float = true /\
  (std_max 0 (std_min 1 x) <=? 1)%float = true.
Proof.
  unfold std_min, std_max.
  destruct (x <? 1)%float eqn:H1.
  - destruct (0 <? x)%float eqn:H0.
    + split; apply ltb_leb; assumption.
    + split; reflexivity.
  - change (0 <? 1)%float with true. cbv iota. split; reflexivity.
Qed.

(** [std::max(0.0, x)] is at least 0 for every [x], a NaN included. *)
Lemma std_max_lower (x : float) : (0 <=? std_max 0 x)%float = true.
Proof.
  unfold std_max. destruct (0 <? x)%float eqn:H;
    [ apply ltb_leb, H | reflexivity ].
Qed.

End DoubleFacts.


(** [classify_posture] never looks at the yaw: the label is decided by the
    pitch and the roll alone, "forward" above 15 degrees of pitch,
    otherwise "tilted" above 10 degrees of roll either way, otherwise
    "slouched" below -15 degrees of pitch, otherwise "good". *)
Theorem classify_posture_ignores_yaw (yaw yaw' pitch roll : float) :
  HeadPoseEstimator.classify_posture yaw pitch roll =
    (if PrimFloat.ltb 15 pitch then "forward"
     else if PrimFloat.ltb 10 (PrimFloat.abs roll) then "tilted"
     else if PrimFloat.ltb pitch (-15) then "slouched"
     else "good") /\
  HeadPoseEstimator.classify_posture yaw pitch roll =
  HeadPoseEstimator.classify_posture yaw' pitch roll.
Proof.
  assert (H : forall y,
             HeadPoseEstimator.classify_posture y pitch roll =
             (if PrimFloat.ltb 15 pitch then "forward"
              else if PrimFloat.ltb 10 (PrimFloat.abs roll) then "tilted"
              else if PrimFloat.ltb pitch (-15) then "slouched"
              else "good")).
  { intros y. unfold HeadPoseEstimator.classify_posture.
    destruct (PrimFloat.ltb (PrimFloat.abs y) 15
              && PrimFloat.ltb (PrimFloat.abs pitch) 15
              && PrimFloat.ltb (PrimFloat.abs roll) 10) eqn:Hgood;
      [ | reflexivity ].
    apply andb_prop in Hgood. destruct Hgood as [Hgood Hroll].
    apply andb_prop in Hgood. destruct Hgood as [_ Hpitch].
    rewrite (DoubleFacts.abs_ltb_upper pitch 15 Hpitch).
    rewrite (DoubleFacts.ltb_asym _ _ Hroll).
    pose proof (DoubleFacts.abs_ltb_lower pitch 15 Hpitch) as Hlow.
    change (PrimFloat.opp 15) with (-15)%float in Hlow.
    rewrite Hlow. reflexivity. }
  split; [ apply H | ]. rewrite (H yaw), (H yaw'). reflexivity.
Qed.

(** Angles that are not numbers are classified "good": with a NaN pitch
    and a NaN roll no test of [classify_posture] succeeds and the last
    [return] is reached. *)
Theorem classify_posture_nan (yaw pitch roll : float) :
  PrimFloat.is_nan pitch = true ->
  PrimFloat.is_nan roll = true ->
  HeadPoseEstimator.classify_posture yaw pitch roll = "good".
Proof.
  intros Hp Hr. unfold HeadPoseEstimator.classify_posture.
  destruct (DoubleFacts.nan_ltb pitch 15 Hp) as (_ & Hp1 & Hp2 & _).
  destruct (DoubleFacts.nan_ltb pitch (-15) Hp) as (Hp3 & _).
  destruct (DoubleFacts.nan_ltb roll 10 Hr) as (_ & _ & Hr1 & Hr2).
  rewrite Hp1, Hp2, Hp3, Hr1, Hr2, andb_false_r. reflexivity.
Qed.

Lemma classify_posture_nan_witness :
  PrimFloat.is_nan PrimFloat.nan = true /\
  HeadPoseEstimator.classify_posture 0 PrimFloat.nan PrimFloat.nan = "good".
Proof.
  split; [ reflexivity | ].
  exact (classify_posture_nan 0 PrimFloat.nan PrimFloat.nan eq_refl eq_refl).
Defined.

(** ** Stress scoring *)

Module StressFacts.
Import StressAnalyzer.

Lemma scaled_returns (object : Type) (cast_double : object -> option float)
      (features : dict object) (key : string) (scale : float) :
  (forall o, features key = Some o -> cast_double o <> None) ->
  exists value, scaled object cast_double features key scale = Some value.
Proof.
  intros Hcast. unfold scaled.
  destruct (features key) as [ o | ] eqn:Hkey; [ | eexists; reflexivity ].
  specialize (Hcast o eq_refl).
  destruct (cast_double o); [ eexists; reflexivity | congruence ].
Qed.

End StressFacts.

(** [calculate_stress_level] returns, and returns a number between 0 and 1
    (so never a NaN), as soon as the values stored under the five features
    it reads are numbers; what is stored under any other key, such as the
    list under "mfcc", is never cast. *)
Theorem stress_level_in_unit_interval
        (object : Type) (cast_double : object -> option float)
        (features : StressAnalyzer.dict object) :
  (forall key o, In key StressAnalyzer.stress_features -> features key = Some o ->
                 cast_double o <> None) ->
  exists level,
    StressAnalyzer.calculate_stress_level object cast_double features
    = Some level /\
    (0 <=? level)%float = true /\ (level <=? 1)%float = true.
Proof.
  intros Hcast. unfold StressAnalyzer.calculate_stress_level.
  destruct (StressFacts.scaled_returns object cast_double features
              "pitch_std" 100) as [ v1 -> ];
    [ intros o; apply Hcast; cbn; tauto | ].
  destruct (StressFacts.scaled_returns object cast_double features
              "energy_std" 0.1) as [ v2 -> ];
    [ intros o; apply Hcast; cbn; tauto | ].
  destruct (StressFacts.scaled_returns object cast_double features
              "speaking_rate" 200) as [ v3 -> ];
    [ intros o; apply Hcast; cbn; tauto | ].
  destruct (StressFacts.scaled_returns object cast_double features
              "spectral_centroid" 5000) as [ v4 -> ];
    [ intros o; apply Hcast; cbn; tauto | ].
  destruct (StressFacts.scaled_returns object cast_double features
              "hrv_estimate" 0.5) as [ v5 -> ];
    [ intros o; apply Hcast; cbn; tauto | ].
  eexists. split; [ reflexivity | ]. apply DoubleFacts.clamp_range.
Qed.

Lemma stress_level_in_unit_interval_witness :
  StressAnalyzer.calculate_stress_level Sample.object Sample.cast_double
                                        Sample.features = Some 0.1%float /\
  exists level,
    StressAnalyzer.calculate_stress_level
      Sample.object Sample.cast_double Sample.features = Some level /\
    (0 <=? level)%float = true /\ (level <=? 1)%float = true.
Proof.
  split; [ reflexivity | ].
  apply (stress_level_in_unit_interval Sample.object Sample.cast_double
                                       Sample.features).
  intros key o Hkey.
  repeat (destruct Hkey as [ <- | Hkey ];
          [ vm_compute; intros H; inversion H; discriminate | ]).
  destruct Hkey.
Defined.

(** [StressAnalyzer::calculate_confidence] returns a number between 0 and
    1 whatever the sample rate and the number of samples are, a sample
    rate of 0 included, when the value under "energy_mean" is a number or
    is absent. *)
Theorem stress_confidence_in_unit_interval
        (object : Type) (cast_double : object -> option float)
        (this : StressAnalyzer.t) (num_samples : Z)
        (features : StressAnalyzer.dict object) :
  (forall o, features "energy_mean" = Some o -> cast_double o <> None) ->
  exists confidence,
    StressAnalyzer.calculate_confidence object cast_double this num_samples
                                        features = Some confidence /\
    (0 <=? confidence)%float = true /\ (confidence <=? 1)%float = true.
Proof.
  intros Hcast. unfold StressAnalyzer.calculate_confidence.
  destruct (features "energy_mean") as [ o | ] eqn:Hkey.
  - specialize (Hcast o eq_refl).
    destruct (cast_double o); [ | congruence ].
    eexists. split; [ reflexivity | ]. apply DoubleFacts.clamp_range.
  - eexists. split; [ reflexivity | ]. apply DoubleFacts.clamp_range.
Qed.

Lemma stress_confidence_in_unit_interval_witness :
  StressAnalyzer.calculate_confidence
    Sample.object Sample.cast_double (StressAnalyzer.construct 0) 0
    Sample.features = Some 1%float /\
  exists confidence,
    StressAnalyzer.calculate_confidence
      Sample.object Sample.cast_double (StressAnalyzer.construct 0) 0
      Sample.features = Some confidence /\
    (0 <=? confidence)%float = true /\ (confidence <=? 1)%float = true.
Proof.
  split; [ reflexivity | ].
  apply (stress_confidence_in_unit_interval
           Sample.object Sample.cast_double (StressAnalyzer.construct 0) 0
           Sample.features).
  vm_compute. intros o H. inversion H. discriminate.
Defined.

(** [classify_stress] is monotone in the level, whatever thresholds the
    object holds: when [a <= b], a "low" for [b] is a "low" for [a] and a
    "high" for [a] is a "high" for [b]. *)
Theorem classify_stress_monotone (this : StressAnalyzer.t) (a b : float) :
  (a <=? b)%float = true ->
  (fst (StressAnalyzer.classify_stress this b) = "low" ->
   fst (StressAnalyzer.classify_stress this a) = "low") /\
  (fst (StressAnalyzer.classify_stress this a) = "high" ->
   fst (StressAnalyzer.classify_stress this b) = "high").
Proof.
  intros Hab. unfold StressAnalyzer.classify_stress.
  destruct (StdMap.at_key (StressAnalyzer.stress_thresholds_ this)
                                  "low") as [ low m1 ].
  destruct (StdMap.at_key m1 "medium") as [ medium m2 ].
  destruct (b <? low)%float eqn:Hb1.
  - rewrite (DoubleFacts.leb_ltb_trans a b low Hab Hb1).
    cbn [fst]. split; [ reflexivity | discriminate ].
  - destruct (b <? medium)%float eqn:Hb2.
    + rewrite (DoubleFacts.leb_ltb_trans a b medium Hab Hb2).
      destruct (a <? low)%float; cbn [fst]; split; discriminate.
    + destruct (a <? low)%float; [ cbn [fst]; split; discriminate | ].
      destruct (a <? medium)%float; cbn [fst]; split;
        try discriminate; reflexivity.
Qed.

Lemma classify_stress_monotone_witness :
  (0.7 <=? 0.9)%float = true /\
  (fst (StressAnalyzer.classify_stress (StressAnalyzer.construct 16000) 0.9)
   = "low" ->
   fst (StressAnalyzer.classify_stress (StressAnalyzer.construct 16000) 0.7)
   = "low") /\
  (fst (StressAnalyzer.classify_stress (StressAnalyzer.construct 16000) 0.7)
   = "high" ->
   fst (StressAnalyzer.classify_stress (StressAnalyzer.construct 16000) 0.9)
   = "high").
Proof.
  split; [ reflexivity | ].
  exact (classify_stress_monotone (StressAnalyzer.construct 16000) 0.7 0.9
                                  eq_refl).
Defined.

(** A level that is not a number is classified "high": both comparisons
    of [classify_stress] fail on a NaN. *)
Theorem classify_stress_nan (this : StressAnalyzer.t) (level : float) :
  is_nan level = true ->
  fst (StressAnalyzer.classify_stress this level) = "high".
Proof.
  intros Hnan. unfold StressAnalyzer.classify_stress.
  destruct (StdMap.at_key (StressAnalyzer.stress_thresholds_ this)
                                  "low") as [ low m1 ].
  destruct (StdMap.at_key m1 "medium") as [ medium m2 ].
  destruct (DoubleFacts.nan_ltb level low Hnan) as (-> & _).
  destruct (DoubleFacts.nan_ltb level medium Hnan) as (-> & _).
  reflexivity.
Qed.

Lemma classify_stress_nan_witness :
  is_nan nan = true /\
  fst (StressAnalyzer.classify_stress (StressAnalyzer.construct 16000) nan)
  = "high".
Proof.
  split; [ reflexivity | ].
  exact (classify_stress_nan (StressAnalyzer.construct 16000) nan eq_refl).
Defined.

(** ** Gaze smoothing *)

Module GazeFacts.
Import GazeEstimator.

Lemma apply_smoothing_history (this : t) (gaze_x gaze_y : float) :
  gaze_history_ (fst (apply_smoothing this gaze_x gaze_y)) =
  (let pushed := gaze_history_ this ++ [(gaze_x, gaze_y)] in
   if Double.size_t_of_int (smoothing_window_ this)
      <? Z.of_nat (length pushed)
   then tl pushed else pushed).
Proof.
  unfold apply_smoothing. cbv zeta.
  destruct (if _ <? _ then _ else _); reflexivity.
Qed.

Lemma apply_smoothing_window (this : t) (gaze_x gaze_y : float) :
  smoothing_window_ (fst (apply_smoothing this gaze_x gaze_y)) =
  smoothing_window_ this.
Proof.
  unfold apply_smoothing. cbv zeta.
  destruct (if _ <? _ then _ else _); reflexivity.
Qed.

Lemma smooth_all_cons (this : t) (s : float * float)
      (samples : list (float * float)) :
  smooth_all this (s :: samples) =
  smooth_all (fst (apply_smoothing this (fst s) (snd s))) samples.
Proof. reflexivity. Qed.

Lemma tl_app {A : Type} (l l' : list A) : l <> [] -> tl (l ++ l') = tl l ++ l'.
Proof. destruct l; [ congruence | reflexivity ]. Qed.

Lemma skipn_S_tl {A : Type} (n : nat) (l : list A) :
  skipn (S n) l = skipn n (tl l).
Proof. destruct l; [ destruct n; reflexivity | reflexivity ]. Qed.

(** A history no longer than the window [w] keeps, after more samples,
    the last [w] entries of the old history followed by the samples. *)
Lemma smooth_all_history (w : nat) (samples : list (float * float)) :
  forall this,
    (0 < w)%nat -> Z.of_nat w < 2 ^ 64 ->
    smoothing_window_ this = Z.of_nat w ->
    (length (gaze_history_ this) <= w)%nat ->
    gaze_history_ (smooth_all this samples) =
    skipn (length (gaze_history_ this) + length samples - w)
          (gaze_history_ this ++ samples).
Proof.
  induction samples as [ | s samples IH ]; intros this Hw Hmax Hwin Hlen.
  - cbn [smooth_all fold_left length]. rewrite app_nil_r.
    replace (length (gaze_history_ this) + 0 - w)%nat with 0%nat by lia.
    reflexivity.
  - rewrite smooth_all_cons.
    pose proof (apply_smoothing_history this (fst s) (snd s)) as Hh.
    pose proof (apply_smoothing_window this (fst s) (snd s)) as Hwin'.
    cbv zeta in Hh. rewrite <- surjective_pairing in Hh.
    unfold Double.size_t_of_int in Hh.
    rewrite Hwin, Z.mod_small, length_app in Hh by lia.
    cbn [length] in Hh.
    set (this' := fst (apply_smoothing this (fst s) (snd s))) in *.
    rewrite Hwin in Hwin'.
    destruct (Z.ltb_spec (Z.of_nat w)
                (Z.of_nat (length (gaze_history_ this) + 1))) as [ Hfull | Hroom ].
    + assert (Hw' : length (gaze_history_ this) = w) by lia.
      assert (Hlen' : length (gaze_history_ this') = w).
      { rewrite Hh. destruct (gaze_history_ this) as [ | g h ];
          cbn [length] in *; [ lia | ].
        cbn [app tl]. rewrite length_app. cbn [length]. lia. }
      rewrite (IH this' Hw Hmax Hwin') by lia.
      rewrite Hlen', Hh, Hw'. cbn [length].
      replace (w + S (length samples) - w)%nat with (S (length samples))
        by lia.
      replace (w + length samples - w)%nat with (length samples) by lia.
      rewrite skipn_S_tl.
      change (s :: samples) with ([s] ++ samples).
      rewrite app_assoc.
      rewrite (tl_app (gaze_history_ this ++ [s]) samples);
        [ reflexivity | ].
      destruct (gaze_history_ this); discriminate.
    + assert (Hlen' : length (gaze_history_ this')
                      = S (length (gaze_history_ this))).
      { rewrite Hh, length_app. cbn [length]. lia. }
      rewrite (IH this' Hw Hmax Hwin') by lia.
      rewrite Hlen', Hh. cbn [length].
      change (s :: samples) with ([s] ++ samples).
      rewrite app_assoc. f_equal. lia.
Qed.

(** While the window, read as a [size_t], is not reached, nothing is
    dropped. *)
Lemma smooth_all_no_trim (samples : list (float * float)) :
  forall this,
    Z.of_nat (length (gaze_history_ this) + length samples)
    <= Double.size_t_of_int (smoothing_window_ this) ->
    gaze_history_ (smooth_all this samples) = gaze_history_ this ++ samples.
Proof.
  induction samples as [ | s samples IH ]; intros this Hlen.
  - cbn [smooth_all fold_left]. rewrite app_nil_r. reflexivity.
  - rewrite smooth_all_cons.
    pose proof (apply_smoothing_history this (fst s) (snd s)) as Hh.
    pose proof (apply_smoothing_window this (fst s) (snd s)) as Hwin.
    cbv zeta in Hh. rewrite <- surjective_pairing in Hh.
    cbn [length] in Hlen.
    destruct (Z.ltb_spec (Double.size_t_of_int (smoothing_window_ this))
                (Z.of_nat (length (gaze_history_ this ++ [s]))))
      as [ Hfull | _ ];
      [ rewrite length_app in Hfull; cbn [length] in Hfull; lia | ].
    rewrite IH.
    + rewrite Hh, <- app_assoc. reflexivity.
    + rewrite Hwin, Hh, length_app. cbn [length]. lia.
Qed.

End GazeFacts.

(** After any number of calls on a new estimator with a window [w] of at
    least 1, the history is the last [w] samples, in order, and no
    longer than [w]. *)
Theorem smoothing_keeps_last_samples
        (w : Z) (samples : list (float * float)) :
  0 < w < 2 ^ 31 ->
  let history :=
    GazeEstimator.gaze_history_
      (GazeEstimator.smooth_all (GazeEstimator.construct w) samples) in
  history = skipn (length samples - Z.to_nat w) samples /\
  Z.of_nat (length history) <= w.
Proof.
  intros Hw history.
  assert (H : history = skipn (length samples - Z.to_nat w) samples).
  { unfold history.
    rewrite (GazeFacts.smooth_all_history (Z.to_nat w) samples
               (GazeEstimator.construct w)); cbn; try reflexivity; lia. }
  split; [ exact H | ].
  rewrite H, length_skipn. lia.
Qed.

Lemma smoothing_keeps_last_samples_witness :
  0 < 2 < 2 ^ 31 /\
  GazeEstimator.gaze_history_
    (GazeEstimator.smooth_all (GazeEstimator.construct 2)
       [(1, 1); (2, 2); (3, 3)]%float)
  = [(2, 2); (3, 3)]%float.
Proof.
  split; [ lia | ].
  exact (proj1 (smoothing_keeps_last_samples
                  2 [(1, 1); (2, 2); (3, 3)]%float
                  (conj eq_refl eq_refl))).
Defined.

(** With a window of 0 nothing is smoothed: on an empty history
    [apply_smoothing] returns the sample it was given, bit for bit, and
    leaves the history empty. *)
Theorem zero_window_returns_sample
        (this : GazeEstimator.t) (gaze_x gaze_y : float) :
  GazeEstimator.smoothing_window_ this = 0 ->
  GazeEstimator.gaze_history_ this = [] ->
  GazeEstimator.apply_smoothing this gaze_x gaze_y
  = (this, (gaze_x, gaze_y)).
Proof.
  destruct this as [ w h le re li ri ]. cbn. intros -> ->. reflexivity.
Qed.

Lemma zero_window_returns_sample_witness :
  GazeEstimator.apply_smoothing (GazeEstimator.construct 0) 0.25 0.75
  = (GazeEstimator.construct 0, (0.25, 0.75)%float).
Proof.
  exact (zero_window_returns_sample (GazeEstimator.construct 0)
                                    0.25 0.75 eq_refl eq_refl).
Defined.

(** A negative window never drops a sample: converted to [size_t] it is
    at least 2^64 - 2^31, and the history grows by every sample given. *)
Theorem negative_window_keeps_everything
        (this : GazeEstimator.t) (samples : list (float * float)) :
  - 2 ^ 31 <= GazeEstimator.smoothing_window_ this < 0 ->
  Z.of_nat (length (GazeEstimator.gaze_history_ this) + length samples)
  < 2 ^ 63 ->
  GazeEstimator.gaze_history_ (GazeEstimator.smooth_all this samples)
  = GazeEstimator.gaze_history_ this ++ samples.
Proof.
  intros Hw Hlen. apply GazeFacts.smooth_all_no_trim.
  unfold Double.size_t_of_int.
  assert (H : GazeEstimator.smoothing_window_ this mod 2 ^ 64
              = GazeEstimator.smoothing_window_ this + 2 ^ 64).
  { symmetry. apply Z.mod_unique with (q := -1); lia. }
  rewrite H. lia.
Qed.

Lemma negative_window_keeps_everything_witness :
  GazeEstimator.gaze_history_
    (GazeEstimator.smooth_all (GazeEstimator.construct (-1))
       [(1, 1); (2, 2); (3, 3)]%float)
  = [(1, 1); (2, 2); (3, 3)]%float.
Proof.
  apply (negative_window_keeps_everything (GazeEstimator.construct (-1))
           [(1, 1); (2, 2); (3, 3)]%float).
  - cbn. lia.
  - cbn. lia.
Defined.

(** ** The calibration matrix as text *)

Module ScannerFacts.
Import CalibrationService.

Section Library.

Variable stod : list byte -> option float.

Lemma scan_app (s s' : list byte) :
  forall st,
    scan stod st (s ++ s') =
    match scan stod st s with
    | None => None
    | Some st' => scan stod st' s'
    end.
Proof.
  induction s as [ | c s IH ]; intros st; cbn [scan app];
    [ reflexivity | ].
  destruct (scan_char stod st c); [ apply IH | reflexivity ].
Qed.

Lemma number_char_not_minus (c : byte) :
  is_number_char c = true -> Byte.eqb c "-"%byte = false.
Proof. destruct c; try reflexivity; discriminate. Qed.

(** Outside a number, the characters that are skipped change nothing. *)
Lemma scan_skipped (s : list byte) (vs : list float) (n : list byte)
      (g : bool) :
  forallb skipped s = true ->
  scan stod {| values := vs; num_str := n; in_num := false; negative := g |} s
  = Some {| values := vs; num_str := n; in_num := false; negative := g |}.
Proof.
  induction s as [ | c s IH ]; cbn [forallb scan]; [ reflexivity | ].
  intros H. apply andb_prop in H. destruct H as [Hc Hs].
  unfold skipped in Hc. apply andb_prop in Hc. destruct Hc as [Hnum Hminus].
  apply negb_true_iff in Hnum, Hminus.
  unfold scan_char. cbn [in_num]. rewrite Hnum, Hminus. cbn [andb].
  apply IH, Hs.
Qed.

(** Inside a number, digits and dots are appended to [num_str]. *)
Lemma scan_digits (s : list byte) :
  forall (vs : list float) (n : list byte) (g : bool),
    forallb is_number_char s = true ->
    scan stod {| values := vs; num_str := n; in_num := true; negative := g |} s
    = Some {| values := vs; num_str := n ++ s; in_num := true;
              negative := g |}.
Proof.
  induction s as [ | c s IH ]; intros vs n g; cbn [forallb scan].
  - rewrite app_nil_r. reflexivity.
  - intros H. apply andb_prop in H. destruct H as [Hc Hs].
    unfold scan_char. cbn [in_num negb]. rewrite andb_false_r, Hc.
    cbn [values num_str negative].
    rewrite IH, <- app_assoc by exact Hs. reflexivity.
Qed.

(** From outside a number, the lead and the number of a token leave the
    scanner inside the number. *)
Lemma scan_number (t : token) (vs : list float) :
  token_ok t = true ->
  scan stod {| values := vs; num_str := []; in_num := false;
               negative := false |} (lead t ++ number t)
  = Some {| values := vs; num_str := number t; in_num := true;
            negative := minus t |}.
Proof.
  unfold token_ok, number. intros H.
  apply andb_prop in H. destruct H as [H Hnumber].
  apply andb_prop in H. destruct H as [H Hstop].
  apply andb_prop in H. destruct H as [Hlead Hdigits].
  rewrite scan_app, scan_skipped by exact Hlead.
  destruct (minus t).
  - cbn [app scan]. unfold scan_char at 1. cbn [in_num negb andb Byte.eqb].
    change (Byte.eqb "-" "-") with true. cbv iota.
    apply scan_digits, Hdigits.
  - cbn [app] in *. destruct (digits t) as [ | d ds ]; [ discriminate | ].
    cbn [forallb] in Hdigits. apply andb_prop in Hdigits.
    destruct Hdigits as [Hd Hds].
    cbn [scan]. unfold scan_char at 1. cbn [in_num negb].
    rewrite (number_char_not_minus d Hd), Hd. cbn [andb values negative].
    rewrite scan_digits by exact Hds. reflexivity.
Qed.

Lemma stop_char (t : token) :
  token_ok t = true -> is_number_char (stop t) = false.
Proof.
  unfold token_ok. intros H.
  apply andb_prop in H. destruct H as [H _].
  apply andb_prop in H. destruct H as [_ H].
  apply negb_true_iff, H.
Qed.

(** The scanner on a token that [std::stod] accepts: one number more,
    negated when the token has a minus sign. *)
Lemma scan_token (t : token) (v : float) (vs : list float) :
  token_ok t = true ->
  stod (number t) = Some v ->
  scan stod {| values := vs; num_str := []; in_num := false;
               negative := false |} (text t)
  = Some {| values := vs ++ [if minus t then (- v)%float else v];
            num_str := []; in_num := false; negative := false |}.
Proof.
  intros Hok Hstod. unfold text.
  rewrite (app_assoc (lead t) (number t)), scan_app, scan_number
    by exact Hok.
  cbn [scan]. unfold scan_char. cbn [in_num negb num_str values negative].
  rewrite andb_false_r, (stop_char t Hok), Hstod. reflexivity.
Qed.

(** The scanner on a token that [std::stod] rejects. *)
Lemma scan_token_rejected (t : token) (vs : list float) (rest : list byte) :
  token_ok t = true ->
  stod (number t) = None ->
  scan stod {| values := vs; num_str := []; in_num := false;
               negative := false |} (text t ++ rest)
  = None.
Proof.
  intros Hok Hstod. unfold text.
  rewrite <- !app_assoc, (app_assoc (lead t) (number t)).
  rewrite scan_app, scan_number by exact Hok.
  cbn [app scan]. unfold scan_char. cbn [in_num negb num_str].
  rewrite andb_false_r, (stop_char t Hok), Hstod. reflexivity.
Qed.

Lemma scan_tokens (tokens : list token) :
  forall (read vs : list float),
    forallb token_ok tokens = true ->
    Forall2 (fun t v => stod (number t) = Some v) tokens read ->
    scan stod {| values := vs; num_str := []; in_num := false;
                 negative := false |} (flat_map text tokens)
    = Some {| values := vs ++ signed tokens read; num_str := [];
              in_num := false; negative := false |}.
Proof.
  induction tokens as [ | t tokens IH ]; intros read vs Hok Hread.
  - inversion Hread. cbn. rewrite app_nil_r. reflexivity.
  - inversion Hread as [ | t' v tokens' read' Hv Hread' ]; subst.
    cbn [forallb] in Hok. apply andb_prop in Hok. destruct Hok as [Ht Hok].
    cbn [flat_map]. rewrite scan_app, (scan_token t v vs Ht Hv).
    rewrite (IH read' _ Hok Hread'), <- app_assoc. reflexivity.
Qed.

Lemma signed_length (tokens : list token) (read : list float) :
  Forall2 (fun t v => stod (number t) = Some v) tokens read ->
  length (signed tokens read) = length tokens.
Proof.
  intros H. unfold signed. rewrite length_map, length_combine.
  apply Forall2_length in H. lia.
Qed.

End Library.

End ScannerFacts.

Module MatrixTextFacts.
Import CalibrationService.

(** Such a print, between skipped characters and a closing character, is
    a token of the scanner. *)
Lemma printed_token (stod : list byte -> option float)
      (to_string : float -> list byte)
      (minus_sign : float -> bool) (read : float -> float) (x : float)
      (before : list byte) (after : byte) :
  printed stod to_string minus_sign read x ->
  forallb skipped before = true ->
  is_number_char after = false ->
  exists t, text t = before ++ to_string x ++ [after] /\
            token_ok t = true /\ minus t = minus_sign x /\
            stod (number t) = Some (read x).
Proof.
  intros (Hread & ds & Hprint & Hds & Hnum) Hbefore Hafter.
  exists {| lead := before; minus := minus_sign x; digits := ds;
            stop := after |}.
  unfold text, number, token_ok. cbn [lead minus digits stop].
  rewrite <- Hprint, Hbefore, Hnum, Hafter, Hread. cbn [andb negb].
  split; [ reflexivity | ]. split; [ | split; reflexivity ].
  unfold number. cbn [minus digits].
  destruct (minus_sign x); [ reflexivity | ].
  destruct ds; [ congruence | reflexivity ].
Qed.

End MatrixTextFacts.

(** [json_to_matrix] reads a text number by number: every run of digits
    and dots, with the minus sign before it if there is one, goes to
    [std::stod], and a run that began with a minus sign is negated once
    more after [std::stod] has read the sign.  The first nine numbers fill
    the matrix; with fewer than nine the matrix is returned as it was
    allocated. *)
Theorem json_to_matrix_reads_tokens
        (stod : list byte -> option float) (fresh : list float)
        (json_str : list byte) (tokens : list CalibrationService.token)
        (tail : list byte) (read : list float) :
  json_str ++ [" "%byte] = flat_map CalibrationService.text tokens ++ tail ->
  forallb CalibrationService.token_ok tokens = true ->
  forallb CalibrationService.skipped tail = true ->
  Forall2 (fun t v => stod (CalibrationService.number t) = Some v)
          tokens read ->
  CalibrationService.json_to_matrix stod fresh json_str =
  Some (if (9 <=? length tokens)%nat
        then firstn 9 (CalibrationService.signed tokens read)
        else fresh).
Proof.
  intros Htext Hok Htail Hread.
  unfold CalibrationService.json_to_matrix, CalibrationService.start.
  rewrite Htext, ScannerFacts.scan_app.
  rewrite (ScannerFacts.scan_tokens stod tokens read [] Hok Hread).
  rewrite ScannerFacts.scan_skipped by exact Htail.
  cbn [CalibrationService.values app].
  rewrite (ScannerFacts.signed_length stod tokens read Hread).
  destruct (9 <=? length tokens)%nat; reflexivity.
Qed.

Lemma json_to_matrix_reads_tokens_witness :
  CalibrationService.json_to_matrix
    Cxx.stod (repeat 0%float 9) (bytes "[[1,-2,3],[4,5,6],[7,8,-9]]")
  = Some [1; 2; 3; 4; 5; 6; 7; 8; 9]%float.
Proof.
  apply (json_to_matrix_reads_tokens
           Cxx.stod (repeat 0%float 9) (bytes "[[1,-2,3],[4,5,6],[7,8,-9]]")
           Sample.nine_numbers (bytes "] ") [1; -2; 3; 4; 5; 6; 7; 8; -9]%float).
  - reflexivity.
  - reflexivity.
  - reflexivity.
  - repeat constructor.
Defined.

(** A run that [std::stod] rejects, a minus sign alone for one, makes
    [json_to_matrix] throw, whatever follows it in the text. *)
Theorem json_to_matrix_rejected_number
        (stod : list byte -> option float) (fresh : list float)
        (json_str : list byte) (tokens : list CalibrationService.token)
        (t : CalibrationService.token) (rest : list byte)
        (read : list float) :
  json_str ++ [" "%byte]
  = flat_map CalibrationService.text tokens ++ CalibrationService.text t
    ++ rest ->
  forallb CalibrationService.token_ok tokens = true ->
  Forall2 (fun t v => stod (CalibrationService.number t) = Some v)
          tokens read ->
  CalibrationService.token_ok t = true ->
  stod (CalibrationService.number t) = None ->
  CalibrationService.json_to_matrix stod fresh json_str = None.
Proof.
  intros Htext Hok Hread Ht Hstod.
  unfold CalibrationService.json_to_matrix, CalibrationService.start.
  rewrite Htext, ScannerFacts.scan_app.
  rewrite (ScannerFacts.scan_tokens stod tokens read [] Hok Hread).
  rewrite (ScannerFacts.scan_token_rejected stod t _ rest Ht Hstod).
  reflexivity.
Qed.

Lemma json_to_matrix_rejected_number_witness :
  CalibrationService.json_to_matrix
    Cxx.stod (repeat 0%float 9) (bytes "[[1,-2,3],[-,5,6],[7,8,-9]]")
  = None.
Proof.
  apply (json_to_matrix_rejected_number
           Cxx.stod (repeat 0%float 9) (bytes "[[1,-2,3],[-,5,6],[7,8,-9]]")
           Sample.first_row (Sample.token_of ",[" true "" ",")
           (bytes "5,6],[7,8,-9]] ") [1; -2; 3]%float).
  - reflexivity.
  - reflexivity.
  - repeat constructor.
  - reflexivity.
  - reflexivity.
Defined.

(** Printing a matrix with [matrix_to_json] and reading the text back
    with [json_to_matrix] does not give the matrix back where an entry is
    printed with a minus sign: [std::stod] reads the sign and the result
    is negated again, so the entry comes back as the opposite of what
    [std::stod] read. *)
Theorem matrix_text_round_trip
        (stod : list byte -> option float) (to_string : float -> list byte)
        (fresh : list float) (minus_sign : float -> bool)
        (read : float -> float) (matrix : list float) :
  length matrix = 9%nat ->
  Forall (CalibrationService.printed stod to_string minus_sign read)
         matrix ->
  exists json,
    CalibrationService.matrix_to_json to_string matrix = Some json /\
    CalibrationService.json_to_matrix stod fresh json =
    Some (map (fun x => if minus_sign x then (- read x)%float else read x)
              matrix).
Proof.
  intros Hlen Hprinted.
  do 9 (destruct matrix as [ | ? matrix ]; [ discriminate | ]).
  destruct matrix; [ | discriminate ]. clear Hlen.
  repeat match goal with
         | H : Forall _ (_ :: _) |- _ =>
             let Hx := fresh "Hx" in
             apply Forall_cons_iff in H; destruct H as [Hx H]
         end.
  clear Hprinted.
  eexists. split; [ reflexivity | ].
  pose proof (fun b a x H => MatrixTextFacts.printed_token
                stod to_string minus_sign read x (bytes b) a H) as Htok.
  destruct (Htok "[[" ","%byte _ Hx eq_refl eq_refl)
    as (t1 & T1 & O1 & M1 & R1).
  destruct (Htok "" ","%byte _ Hx0 eq_refl eq_refl)
    as (t2 & T2 & O2 & M2 & R2).
  destruct (Htok "" "]"%byte _ Hx1 eq_refl eq_refl)
    as (t3 & T3 & O3 & M3 & R3).
  destruct (Htok ",[" ","%byte _ Hx2 eq_refl eq_refl)
    as (t4 & T4 & O4 & M4 & R4).
  destruct (Htok "" ","%byte _ Hx3 eq_refl eq_refl)
    as (t5 & T5 & O5 & M5 & R5).
  destruct (Htok "" "]"%byte _ Hx4 eq_refl eq_refl)
    as (t6 & T6 & O6 & M6 & R6).
  destruct (Htok ",[" ","%byte _ Hx5 eq_refl eq_refl)
    as (t7 & T7 & O7 & M7 & R7).
  destruct (Htok "" ","%byte _ Hx6 eq_refl eq_refl)
    as (t8 & T8 & O8 & M8 & R8).
  destruct (Htok "" "]"%byte _ Hx7 eq_refl eq_refl)
    as (t9 & T9 & O9 & M9 & R9).
  assert (Htext :
            (CalibrationService.bracket
               (CalibrationService.row_to_json to_string f f0 f1)
               (CalibrationService.row_to_json to_string f2 f3 f4)
               (CalibrationService.row_to_json to_string f5 f6 f7))
            ++ [" "%byte]
            = flat_map CalibrationService.text
                       [t1; t2; t3; t4; t5; t6; t7; t8; t9]
              ++ bytes "] ").
  { cbn [flat_map]. rewrite T1, T2, T3, T4, T5, T6, T7, T8, T9.
    unfold CalibrationService.bracket, CalibrationService.row_to_json.
    change (bytes "[[") with (bytes "[" ++ bytes "[").
    change (bytes ",[") with (bytes "," ++ bytes "[").
    change (bytes "] ") with (bytes "]" ++ [" "%byte]).
    change (bytes "") with (@nil byte).
    change [","%byte] with (bytes ",").
    change ["]"%byte] with (bytes "]").
    rewrite <- !app_assoc. reflexivity. }
  unfold CalibrationService.json_to_matrix, CalibrationService.start.
  fold (CalibrationService.bracket
          (CalibrationService.row_to_json to_string f f0 f1)
          (CalibrationService.row_to_json to_string f2 f3 f4)
          (CalibrationService.row_to_json to_string f5 f6 f7)).
  rewrite Htext, ScannerFacts.scan_app.
  rewrite (ScannerFacts.scan_tokens
             stod [t1; t2; t3; t4; t5; t6; t7; t8; t9]
             (map read [f; f0; f1; f2; f3; f4; f5; f6; f7]) []).
  - rewrite ScannerFacts.scan_skipped by reflexivity.
    unfold CalibrationService.signed.
    cbn [CalibrationService.values app map combine fst snd length Nat.leb
         firstn].
    rewrite M1, M2, M3, M4, M5, M6, M7, M8, M9. reflexivity.
  - cbn [forallb]. rewrite O1, O2, O3, O4, O5, O6, O7, O8, O9. reflexivity.
  - cbn [map]. repeat constructor; assumption.
Qed.

Lemma matrix_text_round_trip_witness :
  exists json,
    CalibrationService.matrix_to_json Cxx.to_string Sample.matrix
    = Some json /\
    CalibrationService.json_to_matrix Cxx.stod (repeat 0%float 9) json
    = Some [1.5; 2; 0; 0.25; 1; 10; 100; 0.5; 1]%float.
Proof.
  apply (matrix_text_round_trip Cxx.stod Cxx.to_string (repeat 0%float 9)
                                Sample.minus_sign Sample.read Sample.matrix).
  - reflexivity.
  - unfold Sample.matrix.
    repeat (apply Forall_cons;
            [ split;
              [ reflexivity
              | eexists; split;
                [ vm_compute; reflexivity
                | split; [ discriminate | reflexivity ] ] ] | ]).
    apply Forall_nil.
Defined.

(** ** Productivity scores *)

Module KPIFacts.
Import KPICalculator.

Section Pybind.

Variable object : Type.
Variable cast_double : object -> option float.

Lemma focus_distances_filter (gaze_data : list (dict object)) :
  forall distances,
    Forall (fun gaze => get_double object cast_double gaze "confidence" 0
                        <> None) gaze_data ->
    focus_distances object cast_double gaze_data distances =
    focus_distances object cast_double
      (filter (confident object cast_double) gaze_data) distances.
Proof.
  induction gaze_data as [ | gaze rest IH ]; intros distances Hcast;
    [ reflexivity | ].
  apply Forall_cons_iff in Hcast. destruct Hcast as [Hgaze Hrest].
  cbn [filter focus_distances]. unfold confident.
  destruct (get_double object cast_double gaze "confidence" 0)
    as [ confidence | ] eqn:Hconfidence; [ | congruence ].
  destruct (0.5 <? confidence)%float eqn:Htest.
  - cbn [focus_distances]. rewrite Hconfidence, Htest.
    destruct (get_double object cast_double gaze "gaze_x" 0.5);
      [ | reflexivity ].
    destruct (get_double object cast_double gaze "gaze_y" 0.5);
      [ | reflexivity ].
    apply IH, Hrest.
  - apply IH, Hrest.
Qed.

Lemma confident_levels_filter (stress_data : list (dict object)) :
  forall stress_levels,
    Forall (fun s => get_double object cast_double s "confidence" 0
                     <> None) stress_data ->
    confident_levels object cast_double stress_data stress_levels =
    confident_levels object cast_double
      (filter (confident object cast_double) stress_data) stress_levels.
Proof.
  induction stress_data as [ | s rest IH ]; intros stress_levels Hcast;
    [ reflexivity | ].
  apply Forall_cons_iff in Hcast. destruct Hcast as [Hs Hrest].
  cbn [filter confident_levels]. unfold confident.
  destruct (get_double object cast_double s "confidence" 0)
    as [ confidence | ] eqn:Hconfidence; [ | congruence ].
  destruct (0.5 <? confidence)%float eqn:Htest.
  - cbn [confident_levels]. rewrite Hconfidence, Htest.
    destruct (get_double object cast_double s "stress_level" 0);
      [ | reflexivity ].
    apply IH, Hrest.
  - apply IH, Hrest.
Qed.

End Pybind.

End KPIFacts.

(** The focus score is never negative and never a NaN, whatever numbers
    the samples hold. *)
Theorem focus_score_not_negative
        (object : Type) (cast_double : object -> option float)
        (gaze_data : list (KPICalculator.dict object)) (score : float) :
  KPICalculator.calculate_focus_score object cast_double gaze_data
  = Some score ->
  (0 <=? score)%float = true.
Proof.
  unfold KPICalculator.calculate_focus_score.
  destruct gaze_data as [ | gaze rest ].
  - intros H. inversion H. reflexivity.
  - destruct (KPICalculator.focus_distances _ _ _ _)
      as [ [ | d distances ] | ]; intros H; inversion H.
    + reflexivity.
    + apply DoubleFacts.std_max_lower.
Qed.

Lemma focus_score_not_negative_witness :
  KPICalculator.calculate_focus_score
    Sample.object Sample.cast_double Sample.samples = Some 0.5%float /\
  (0 <=? 0.5)%float = true.
Proof.
  split; [ reflexivity | ].
  exact (focus_score_not_negative Sample.object Sample.cast_double
                                  Sample.samples 0.5 eq_refl).
Defined.

(** The focus score is that of the samples whose confidence is above
    0.5: the others add nothing, and what they hold as coordinates is
    never cast. *)
Theorem focus_score_of_confident_samples
        (object : Type) (cast_double : object -> option float)
        (gaze_data : list (KPICalculator.dict object)) :
  Forall (fun gaze =>
            KPICalculator.get_double object cast_double gaze "confidence" 0
            <> None) gaze_data ->
  KPICalculator.calculate_focus_score object cast_double gaze_data =
  KPICalculator.calculate_focus_score
    object cast_double
    (filter (KPICalculator.confident object cast_double) gaze_data).
Proof.
  intros Hcast. unfold KPICalculator.calculate_focus_score.
  destruct gaze_data as [ | gaze rest ]; [ reflexivity | ].
  rewrite (KPIFacts.focus_distances_filter object cast_double _ [] Hcast).
  destruct (filter _ (gaze :: rest)); reflexivity.
Qed.

Lemma focus_score_of_confident_samples_witness :
  length (filter (KPICalculator.confident Sample.object Sample.cast_double)
                 Sample.samples) = 1%nat /\
  KPICalculator.calculate_focus_score
    Sample.object Sample.cast_double Sample.samples =
  KPICalculator.calculate_focus_score
    Sample.object Sample.cast_double
    (filter (KPICalculator.confident Sample.object Sample.cast_double)
            Sample.samples).
Proof.
  split; [ reflexivity | ].
  apply (focus_score_of_confident_samples Sample.object Sample.cast_double
                                          Sample.samples).
  repeat (apply Forall_cons; [ vm_compute; discriminate | ]).
  apply Forall_nil.
Defined.

(** The stress score is that of the samples whose confidence is above
    0.5; with no such sample it is 0.5. *)
Theorem stress_score_of_confident_samples
        (object : Type) (cast_double : object -> option float)
        (stress_data : list (KPICalculator.dict object)) :
  Forall (fun s =>
            KPICalculator.get_double object cast_double s "confidence" 0
            <> None) stress_data ->
  KPICalculator.calculate_stress_score object cast_double stress_data =
  KPICalculator.calculate_stress_score
    object cast_double
    (filter (KPICalculator.confident object cast_double) stress_data) /\
  (filter (KPICalculator.confident object cast_double) stress_data = [] ->
   KPICalculator.calculate_stress_score object cast_double stress_data
   = Some 0.5%float).
Proof.
  intros Hcast.
  assert (H : KPICalculator.calculate_stress_score
                object cast_double stress_data =
              KPICalculator.calculate_stress_score
                object cast_double
                (filter (KPICalculator.confident object cast_double)
                        stress_data)).
  { unfold KPICalculator.calculate_stress_score.
    destruct stress_data as [ | s rest ]; [ reflexivity | ].
    rewrite (KPIFacts.confident_levels_filter object cast_double _ []
                                              Hcast).
    destruct (filter _ (s :: rest)); reflexivity. }
  split; [ exact H | ]. intros Hnone. rewrite H, Hnone. reflexivity.
Qed.

Lemma stress_score_of_confident_samples_witness :
  KPICalculator.calculate_stress_score
    Sample.object Sample.cast_double Sample.samples = Some 0.75%float /\
  KPICalculator.calculate_stress_score
    Sample.object Sample.cast_double Sample.samples =
  KPICalculator.calculate_stress_score
    Sample.object Sample.cast_double
    (filter (KPICalculator.confident Sample.object Sample.cast_double)
            Sample.samples).
Proof.
  split; [ reflexivity | ].
  apply (stress_score_of_confident_samples
           Sample.object Sample.cast_double Sample.samples).
  repeat (apply Forall_cons; [ vm_compute; discriminate | ]).
  apply Forall_nil.
Defined.

(** Whenever the four scores are all 0.5, as they are with no data at
    all, [calculate_productivity_metrics] of a new calculator returns
    exactly the dictionary of [get_default_metrics], an overall
    productivity of 0.5 included, and leaves the weights as they were. *)
Theorem half_scores_give_default_metrics
        (object : Type) (cast_double : object -> option float)
        (cast_string : object -> option (list byte))
        (gaze_data pose_data stress_data : list (KPICalculator.dict object))
        (window_start window_end : list byte) :
  KPICalculator.calculate_focus_score object cast_double gaze_data
  = Some 0.5%float ->
  KPICalculator.calculate_engagement_score object cast_double
                                           gaze_data pose_data
  = Some 0.5%float ->
  KPICalculator.calculate_stress_score object cast_double stress_data
  = Some 0.5%float ->
  KPICalculator.calculate_posture_score object cast_string pose_data
  = Some 0.5%float ->
  KPICalculator.calculate_productivity_metrics
    object cast_double cast_string KPICalculator.construct
    gaze_data pose_data stress_data window_start window_end
  = Some (KPICalculator.get_default_metrics window_start window_end,
          KPICalculator.construct).
Proof.
  intros Hfocus Hengagement Hstress Hposture.
  unfold KPICalculator.calculate_productivity_metrics.
  rewrite Hfocus, Hengagement, Hstress, Hposture. reflexivity.
Qed.

Lemma half_scores_give_default_metrics_witness :
  KPICalculator.calculate_productivity_metrics
    Sample.object Sample.cast_double Sample.cast_string
    KPICalculator.construct Sample.gaze_data Sample.pose_data
    Sample.stress_data (bytes "09:00") (bytes "09:05")
  = Some (KPICalculator.get_default_metrics (bytes "09:00") (bytes "09:05"),
          KPICalculator.construct).
Proof.
  exact (half_scores_give_default_metrics
           Sample.object Sample.cast_double Sample.cast_string
           Sample.gaze_data Sample.pose_data Sample.stress_data
           (bytes "09:00") (bytes "09:05") eq_refl eq_refl eq_refl eq_refl).
Defined.
